(** * Coffee-shop backend: the drinks API (backend/src/api.py)

    A shallow embedding of the five route handlers and the three error
    handlers of [api.py].  Requests carry Python values parsed from JSON,
    the drinks table is a finite map from primary key to row, raised
    exceptions are the [Raise] branch of a result type, and the store is
    passed explicitly through every handler.

    [api.py] imports [Transaction] and [Drink] from [database/models.py]
    and [AuthError] and [requires_auth] from [auth/auth.py]; these are
    modelled from the specification and marked as such. *)

From Stdlib Require Import ZArith List String Bool Lia.
From Stdlib Require Import Floats.SpecFloat.
From stdpp Require Import base option gmap strings list fin_maps pretty.

Set Warnings "-register-all".
Local Open Scope string_scope.
Local Open Scope Z_scope.

(** ** Python values

    What [request.get_json()] can hand to a handler: the values the JSON
    decoder builds.  A dict is kept as the list of its items; [py_get]
    reads it the way [dict.get] does. *)

Inductive pyval : Type :=
| PyNone
| PyBool (b : bool)
| PyInt (n : Z)
| PyFloat (f : spec_float)
| PyStr (s : string)
| PyList (l : list pyval)
| PyDict (items : list (string * pyval)).

(** Truth value of an object in a condition ([if title:]). *)
Definition truthy (v : pyval) : bool :=
  match v with
  | PyNone => false
  | PyBool b => b
  | PyInt n => negb (n =? 0)
  | PyFloat (S754_zero _) => false
  | PyFloat _ => true
  | PyStr s => negb (String.eqb s "")
  | PyList l => match l with [] => false | _ => true end
  | PyDict items => match items with [] => false | _ => true end
  end.

(** [d[key]] for a dict given by its items. *)
Fixpoint dict_lookup (key : string) (items : list (string * pyval)) : option pyval :=
  match items with
  | [] => None
  | (k, v) :: rest => if String.eqb k key then Some v else dict_lookup key rest
  end.

(** [obj.get(key, default)]: only a dict has the method, on anything else
    the attribute lookup raises ([None] here). *)
Definition py_get (obj : pyval) (key : string) (dflt : pyval) : option pyval :=
  match obj with
  | PyDict items => Some (default dflt (dict_lookup key items))
  | _ => None
  end.

(** ** Exceptions and responses *)

(** What a handler can raise: [abort(code)] raises an [HTTPException], the
    guard raises an [AuthError], library calls raise exceptions of their
    own ([AttributeError], [TypeError], ...).  [AuthError] is in
    [auth/auth.py], which is not part of the sources; following the spec
    it carries an error code string and a status code. *)
Inductive exn : Type :=
| HTTPException (code : Z)
| AuthError (error : string) (status_code : Z)
| Exception (name : string).   (* any other Python exception *)

Inductive result (A : Type) : Type :=
| Return (a : A)
| Raise (e : exn).
Arguments Return {A} a.
Arguments Raise {A} e.

(** A response body is either what [jsonify] was given, or the page the
    framework renders on its own for an exception nobody handles. *)
Inductive body : Type :=
| Json (j : pyval)
| DefaultPage.

Record response : Type := Response { resp_body : body; resp_status : Z }.

(** ** Drinks and the drinks table *)

(** Modelled from the spec: a row of the drinks table of
    [database/models.py], which is not part of the sources, under its
    primary key: the title and the recipe serialized as text.  The title
    is the Python value the handler assigned to it. *)
Record row : Type := Row { row_title : pyval; row_recipe : string }.

(** Modelled from the spec: a [Drink] object of [database/models.py] in
    a handler, with its store-assigned integer identifier, its title and
    its recipe text.  [id] is [None] until the store has assigned one. *)
Record Drink : Type := mkDrink { id : option Z; title : pyval; recipe : string }.

Definition drink_of (i : Z) (r : row) : Drink :=
  {| id := Some i; title := row_title r; recipe := row_recipe r |}.

Definition row_of (d : Drink) : row :=
  {| row_title := title d; row_recipe := recipe d |}.

(** Events of one request, in the order they happen. *)
Inductive event : Type :=
| Invoke          (* the guard calls the wrapped handler *)
| RunUnit         (* the unit of work is started *)
| Commit          (* the pending changes are committed *)
| CommitFailed    (* the store refused the commit *)
| Rollback.       (* the pending changes are discarded *)

Global Instance event_eq_dec : EqDecision event.
Proof. solve_decision. Defined.

(** ** Code that runs against the session: state and exceptions *)

Definition M (A : Type) : Type := gmap Z row -> result A * gmap Z row.

Definition ret {A} (a : A) : M A := fun s => (Return a, s).

Definition bind {A B} (m : M A) (k : A -> M B) : M B :=
  fun s => match m s with
           | (Return a, s') => k a s'
           | (Raise e, s') => (Raise e, s')
           end.

Definition raise {A} (e : exn) : M A := fun s => (Raise e, s).

(** [abort(code)] *)
Definition abort {A} (code : Z) : M A := raise (HTTPException code).

(** [try: body  except: handler] with a bare [except], which catches
    every exception. *)
Definition try_except {A} (body : M A) (handler : M A) : M A :=
  fun s => match body s with
           | (Return a, s') => (Return a, s')
           | (Raise _, s') => handler s'
           end.

(** A library call that either gives a value or raises [e]. *)
Definition or_raise {A} (e : exn) (o : option A) : M A :=
  match o with
  | Some a => ret a
  | None => raise e
  end.

Notation "x <- m ;; k" := (bind m (fun x => k))
  (at level 100, m at next level, right associativity).

(** The relational store and the methods of [Drink] that reach it are in
    [database/models.py], which is not part of the sources.  The spec
    gives a drinks table with a unique, store-assigned integer
    identifier; a handler reads and changes it through
    [Drink.query.get], [Drink.query.all], attribute assignment, [insert]
    and [delete]. *)
Module Store.

(** Modelled from the spec: the lookup of a drink by its identifier. *)
Definition get (i : Z) (s : gmap Z row) : option Drink :=
  drink_of i <$> s !! i.

(** Modelled from the spec: [Drink.query.all()], every stored drink. *)
Definition all (s : gmap Z row) : list Drink :=
  (fun kv => drink_of kv.1 kv.2) <$> map_to_list s.

(** Modelled from the spec: the identifier the store assigns to the next
    inserted row, unique in the table: one more than the largest one in
    use. *)
Definition fresh_id (s : gmap Z row) : Z :=
  1 + foldr (fun kv acc => Z.max kv.1 acc) 0 (map_to_list s).

(** Modelled from the spec: the session writes the attributes of a
    drink it has loaded to the drink's row. *)
Definition save (d : Drink) (s : gmap Z row) : gmap Z row :=
  match id d with
  | Some i => <[i := row_of d]> s
  | None => s
  end.

(** Modelled from the spec: [Drink.query.get(id)]. *)
Definition query_get (i : Z) : M (option Drink) :=
  fun s => (Return (get i s), s).

(** Modelled from the spec: [drink.title = title] on a drink of the
    session. *)
Definition set_title (v : pyval) (d : Drink) : M Drink :=
  fun s => let d' := {| id := id d; title := v; recipe := recipe d |} in
           (Return d', save d' s).

(** Modelled from the spec: [drink.recipe = text] on a drink of the
    session. *)
Definition set_recipe (text : string) (d : Drink) : M Drink :=
  fun s => let d' := {| id := id d; title := title d; recipe := text |} in
           (Return d', save d' s).

(** Modelled from the spec: [drink.insert()], the drink gets its
    identifier and its row. *)
Definition insert (d : Drink) : M Drink :=
  fun s => let i := fresh_id s in
           (Return {| id := Some i; title := title d; recipe := recipe d |},
            <[i := row_of d]> s).

(** Modelled from the spec: [drink.delete()], the row of the drink is
    removed. *)
Definition delete (d : Drink) : M unit :=
  fun s => (Return tt,
            match id d with
            | Some i => base.delete i s
            | None => s
            end).

End Store.

(** ** The collaborators of [api.py] *)

(** Modelled from the spec: library and repository code that the handlers
    call and that is not in the sources, taken as parameters.  [dumps] is
    [json.dumps] ([None] when it raises); [long] and [short] are the two
    projections of a drink ([Drink.long] and [Drink.short] of
    [database/models.py]); [accepts] tells whether the store commits the
    pending changes (it refuses on a constraint violation or a
    connectivity failure); [known_keys] is the signing-key set (key id
    to key) and [now] the clock of the token verifier. *)
Class Env : Type := {
  dumps : pyval -> option string;
  long : Drink -> pyval;
  short : Drink -> pyval;
  accepts : gmap Z row -> gmap Z row -> bool;
  known_keys : gmap string string;
  now : Z
}.

(** What answers a request: the response or the exception, the store
    afterwards, and the events on the way. *)
Definition handler : Type := gmap Z row -> result response * gmap Z row * list event.

(** [jsonify(obj)], returned from a view function: status 200. *)
Definition jsonify (obj : pyval) : response := Response (Json obj) 200.

(** Modelled from the spec: a bearer token that parses, as far as the
    verifier of [auth/auth.py] looks at it.  It may name a key id, an
    issuer and an audience, has a subject, an expiry and the key its
    signature was made with, and may carry a permissions claim. *)
Record jwt : Type := {
  kid : option string;
  iss : option string;
  aud : option string;
  sub : string;
  exp : Z;
  signed_with : string;
  permissions : option (list string)
}.

(** Modelled from the spec: the [Authorization] header of a request:
    whether its scheme is the bearer scheme, and the token when it
    parses. *)
Record authorization : Type := { bearer : bool; token : option jwt }.

(** A request: the header the guard reads and the body [get_json] parses
    ([None] when the body does not parse). *)
Record request : Type := { auth_header : option authorization; json : option pyval }.

(** [request.get_json()]: the parsed body, or [BadRequest] (400) when
    there is none. *)
Definition get_json (r : request) : M pyval :=
  or_raise (HTTPException 400) (json r).

(** [Transaction] is in [database/models.py], which is not part of the
    sources; [api.py] builds one from a unit of work, sets the success
    callback and runs it. *)
Module Transaction.

(** Modelled from the spec: the transaction context, one unit of work and
    one callback that renders the response. *)
Record t : Type := { tx : M Drink; on_success : Drink -> response }.

(** Modelled from the spec: [Transaction(tx).success(callback)], the
    decorator wraps the unit of work and [success] sets the callback. *)
Definition success (callback : Drink -> response) (tx : M Drink) : t :=
  {| tx := tx; on_success := callback |}.

(** Modelled from the spec: [.run()].  The unit of work runs once; if it
    raises, nothing is committed, the pending changes are rolled back and
    the same exception is raised again; if it returns a drink the changes
    are committed and the callback renders the response; if the commit
    itself fails the wrapper rolls back and raises a server error. *)
Definition run `{Env} (self : t) : handler :=
  fun s =>
    match tx self s with
    | (Raise e, _) => (Raise e, s, [RunUnit; Rollback])
    | (Return d, s') =>
        if accepts s s'
        then (Return (on_success self d), s', [RunUnit; Commit])
        else (Raise (HTTPException 500), s, [RunUnit; CommitFailed; Rollback])
    end.

End Transaction.

(** [requires_auth] and the token verifier are in [auth/auth.py], which
    is not part of the sources. *)
Module Auth.

(** Modelled from the spec: a verified token, with its subject, its
    permission set and its expiry. *)
Record AuthToken : Type := {
  subject : string;
  permission_set : gset string;
  expiry : Z
}.

(** Modelled from the spec: the authorization errors, each with its
    error code string and its status: 401 for a missing, invalid or
    expired token, 400 for a malformed one, 403 for a missing
    permission. *)
Definition MissingToken : exn := AuthError "MissingToken" 401.
Definition MalformedToken : exn := AuthError "MalformedToken" 400.
Definition InvalidSignature : exn := AuthError "InvalidSignature" 401.
Definition ExpiredToken : exn := AuthError "ExpiredToken" 401.
Definition InsufficientScope : exn := AuthError "InsufficientScope" 403.

(** Modelled from the spec: a known signing key matches the key id of
    the token and the signature checks against it. *)
Definition signature_valid `{Env} (t : jwt) : bool :=
  match kid t with
  | Some k => match known_keys !! k with
              | Some key => String.eqb (signed_with t) key
              | None => false
              end
  | None => false
  end.

(** Modelled from the spec: the expiry claim is in the past. *)
Definition expired `{Env} (t : jwt) : bool := exp t <? now.

(** Modelled from the spec: the token verifier.  It fails with
    MissingToken when there is no bearer token, MalformedToken for a
    wrong scheme, an unparseable token or a missing issuer, audience or
    key id, InvalidSignature when no known key matches the key id or the
    signature does not check against it, and ExpiredToken when the expiry
    is in the past; otherwise it gives the token with its permission set,
    empty when the claim is absent. *)
Definition verify `{Env} (h : option authorization) : result AuthToken :=
  match h with
  | None => Raise MissingToken
  | Some a =>
      match bearer a, token a with
      | true, Some t =>
          match kid t, iss t, aud t with
          | Some _, Some _, Some _ =>
              if negb (signature_valid t) then Raise InvalidSignature
              else if expired t then Raise ExpiredToken
              else Return {| subject := sub t;
                             permission_set := list_to_set (default [] (permissions t));
                             expiry := exp t |}
          | _, _, _ => Raise MalformedToken
          end
      | _, _ => Raise MalformedToken
      end
  end.

(** Modelled from the spec: [@requires_auth(permission)] around a view
    function.  A verification failure is raised on as it is; a verified
    token that lacks the permission gives InsufficientScope (403);
    otherwise the view function is called and its result returned
    unchanged. *)
Definition requires_auth `{Env} (permission : string) (f : request -> handler)
  : request -> handler :=
  fun r s =>
    match verify (auth_header r) with
    | Raise e => (Raise e, s, [])
    | Return tok =>
        if decide (permission ∈ permission_set tok)
        then let '(res, s', evs) := f r s in (res, s', Invoke :: evs)
        else (Raise InsufficientScope, s, [])
    end.

End Auth.

(** ** The routes of [api.py] *)

Inductive route : Type :=
| GET_drinks
| GET_drinks_detail
| POST_drinks
| PATCH_drinks (id : Z)
| DELETE_drinks (id : Z).

Section Routes.
Context `{Env}.

(** [GET /drinks] *)
Definition get_drinks : request -> handler :=
  fun request s =>
    let response :=
      PyDict [("success", PyBool true);
              ("drinks", PyList (short <$> Store.all s))] in
    (Return (jsonify response), s, []).

(** [GET /drinks-detail] (under [requires_auth], see [view]) *)
Definition get_drinks_detail : request -> handler :=
  fun request s =>
    let response :=
      PyDict [("success", PyBool true);
              ("drinks", PyList (long <$> Store.all s))] in
    (Return (jsonify response), s, []).

(** The [try] block of [post_drink]. *)
Definition post_drink_parse (request : request) : M Drink :=
  request_json <- get_json request ;;
  title <- or_raise (Exception "AttributeError")
                    (py_get request_json "title" (PyStr "")) ;;
  recipe <- or_raise (Exception "AttributeError")
                     (py_get request_json "recipe" (PyList [])) ;;
  text <- or_raise (Exception "TypeError") (dumps recipe) ;;
  ret {| id := None; title := title; recipe := text |}.

(** [POST /drinks] *)
Definition post_drink : request -> handler :=
  fun request =>
    let tx : M Drink :=
      drink <- try_except (post_drink_parse request) (abort 422) ;;
      drink <- Store.insert drink ;;
      ret drink in
    let success := fun drink =>
      jsonify (PyDict [("success", PyBool true); ("drinks", PyList [long drink])]) in
    Transaction.run (Transaction.success success tx).

(** The [try] block of [update_drink]. *)
Definition update_drink_apply (request : request) (drink : Drink) : M Drink :=
  request_json <- get_json request ;;
  title <- or_raise (Exception "AttributeError")
                    (py_get request_json "title" (PyStr "")) ;;
  drink <- (if truthy title then Store.set_title title drink else ret drink) ;;
  recipe <- or_raise (Exception "AttributeError")
                     (py_get request_json "recipe" (PyList [])) ;;
  (if truthy recipe
   then text <- or_raise (Exception "TypeError") (dumps recipe) ;;
        Store.set_recipe text drink
   else ret drink).

(** [PATCH /drinks/<int:id>] *)
Definition update_drink (id : Z) : request -> handler :=
  fun request =>
    let tx : M Drink :=
      drink <- Store.query_get id ;;
      match drink with
      | None => abort 404
      | Some drink =>
          drink <- try_except (update_drink_apply request drink) (abort 422) ;;
          ret drink
      end in
    let success := fun drink =>
      jsonify (PyDict [("success", PyBool true); ("drinks", PyList [long drink])]) in
    Transaction.run (Transaction.success success tx).

(** [drink.id] in a response body *)
Definition id_value (d : Drink) : pyval :=
  match id d with
  | Some i => PyInt i
  | None => PyNone
  end.

(** [DELETE /drinks/<int:id>] *)
Definition delete_drinks (id : Z) : request -> handler :=
  fun request =>
    let tx : M Drink :=
      drink <- Store.query_get id ;;
      match drink with
      | None => abort 404
      | Some drink =>
          _ <- Store.delete drink ;;
          ret drink
      end in
    let success := fun drink =>
      jsonify (PyDict [("success", PyBool true); ("delete", id_value drink)]) in
    Transaction.run (Transaction.success success tx).

(** *** Error handling *)

(** [@app.errorhandler(422)] *)
Definition unprocessable (error : exn) : response :=
  Response (Json (PyDict [("success", PyBool false);
                          ("error", PyInt 422);
                          ("message", PyStr "unprocessable")])) 422.

(** [@app.errorhandler(404)] *)
Definition resource_not_found (error : exn) : response :=
  Response (Json (PyDict [("success", PyBool false);
                          ("error", PyInt 404);
                          ("message", PyStr "resource not found")])) 404.

(** [@app.errorhandler(AuthError)] *)
Definition auth_error (error : string) (status_code : Z) : response :=
  Response (Json (PyDict [("success", PyBool false);
                          ("error", PyInt status_code);
                          ("message", PyStr error)])) status_code.

(** How the framework answers an exception that leaves a view function:
    with the handler registered for it; an HTTP exception without one
    is rendered by the framework as its own page, any other exception
    as the page of a 500. *)
Definition handle_exception (e : exn) : response :=
  match e with
  | AuthError error status_code => auth_error error status_code
  | HTTPException code =>
      if code =? 422 then unprocessable e
      else if code =? 404 then resource_not_found e
      else Response DefaultPage code
  | Exception _ => Response DefaultPage 500
  end.

(** The route table, with the guards the decorators put around the view
    functions. *)
Definition view (rt : route) : request -> handler :=
  match rt with
  | GET_drinks => get_drinks
  | GET_drinks_detail => Auth.requires_auth "get:drinks-detail" get_drinks_detail
  | POST_drinks => Auth.requires_auth "post:drinks" post_drink
  | PATCH_drinks id => Auth.requires_auth "patch:drinks" (update_drink id)
  | DELETE_drinks id => Auth.requires_auth "delete:drinks" (delete_drinks id)
  end.

(** One request through the application. *)
Definition respond (h : handler) (s : gmap Z row) : response * gmap Z row * list event :=
  match h s with
  | (Return resp, s', evs) => (resp, s', evs)
  | (Raise e, s', evs) => (handle_exception e, s', evs)
  end.

Definition app (rt : route) (r : request) : gmap Z row -> response * gmap Z row * list event :=
  respond (view rt r).

End Routes.

(** ** Notions the properties are stated with *)

Section Notions.
Context `{Env}.

(** The value the request body supplies for [key], when the body is a
    dict that has the key with a value that counts as true. *)
Definition supplied_value (key : string) (r : request) : option pyval :=
  match json r with
  | Some (PyDict items) =>
      match dict_lookup key items with
      | Some v => if truthy v then Some v else None
      | None => None
      end
  | _ => None
  end.

Definition supplied (key : string) (r : request) : bool :=
  bool_decide (is_Some (supplied_value key r)).

(** The guard lets the request through: the token verifies and carries
    the permission. *)
Definition authorized (permission : string) (r : request) : bool :=
  match Auth.verify (auth_header r) with
  | Return tok => bool_decide (permission ∈ Auth.permission_set tok)
  | Raise _ => false
  end.

(** The token of a request, when the header has one. *)
Definition token_of (r : request) : option jwt :=
  a ← auth_header r; token a.

(** [DELETE /drinks/<id>] again and again, one request after the
    other; the responses in order and the store at the end. *)
Fixpoint repeat_delete (id : Z) (rs : list request) (s : gmap Z row)
  : list response * gmap Z row :=
  match rs with
  | [] => ([], s)
  | r :: rest =>
      let '(resp, s', _) := respond (delete_drinks id r) s in
      let '(resps, s'') := repeat_delete id rest s' in
      (resp :: resps, s'')
  end.

(** The unit of work of a transaction returns normally on [s]. *)
Definition returns_normally (self : Transaction.t) (s : gmap Z row) : bool :=
  match Transaction.tx self s with
  | (Return _, _) => true
  | (Raise _, _) => false
  end.

Definition occurs (e : event) (evs : list event) : bool := bool_decide (e ∈ evs).

(** The invariant of the transaction wrapper as the specification
    states it, for one run: the unit of work runs at most once, the
    changes are committed exactly when it returns normally, and exactly
    one of commit and rollback occurs. *)
Definition transaction_invariant (self : Transaction.t) (s : gmap Z row) : Prop :=
  let '(_, _, evs) := Transaction.run self s in
  (length (filter (fun e => e = RunUnit) evs) <= 1)%nat /\
  (occurs Commit evs = true <-> returns_normally self s = true) /\
  xorb (occurs Commit evs) (occurs Rollback evs) = true.

End Notions.

(** The uniform error body: success false, a numeric error code and a
    message string, and nothing else. *)
Definition uniform_error (resp : response) : bool :=
  match resp_body resp with
  | Json (PyDict [(k1, PyBool false); (k2, PyInt _); (k3, PyStr _)]) =>
      String.eqb k1 "success" && String.eqb k2 "error" && String.eqb k3 "message"
  | _ => false
  end.

(** The error code of a body, when it has one. *)
Definition error_code (resp : response) : option Z :=
  match resp_body resp with
  | Json (PyDict items) =>
      match dict_lookup "error" items with
      | Some (PyInt code) => Some code
      | _ => None
      end
  | _ => None
  end.

(** The exceptions that can leave a view function. *)
Definition route_exn (e : exn) : Prop :=
  (exists error status_code, e = AuthError error status_code) \/
  e = HTTPException 404 \/ e = HTTPException 422 \/ e = HTTPException 500.

(** The exceptions [api.py] registers an error handler for. *)
Definition has_errorhandler (e : exn) : bool :=
  match e with
  | AuthError _ _ => true
  | HTTPException code => (code =? 422) || (code =? 404)
  | Exception _ => false
  end.

(** ** A concrete environment

    An instance of the collaborators, to run the handlers on examples. *)

Module Demo.

Definition quote : string := String (Ascii.ascii_of_nat 34) "".

(** A string can be written between quotes as it is when it has no
    quote, backslash, control or non-ASCII character. *)
Definition plain_char (c : Ascii.ascii) : bool :=
  let n := Ascii.nat_of_ascii c in
  ((32 <=? n) && (n <? 127) && negb (n =? 34) && negb (n =? 92))%nat.

Definition plain (s : string) : bool := forallb plain_char (list_ascii_of_string s).

Definition join (parts : list string) : string :=
  match parts with
  | [] => ""
  | p :: ps => fold_left (fun acc q => acc ++ ", " ++ q) ps p
  end%string.

Definition sequence {A} (l : list (option A)) : option (list A) :=
  foldr (fun o acc => match o, acc with
                      | Some a, Some r => Some (a :: r)
                      | _, _ => None
                      end) (Some []) l.

(** [json.dumps] on integers, booleans, [None], plain strings, lists
    and dicts of them; on a float or another string it gives up. *)
Fixpoint plain_dumps (v : pyval) : option string :=
  match v with
  | PyNone => Some "null"
  | PyBool true => Some "true"
  | PyBool false => Some "false"
  | PyInt n => Some (pretty.pretty n)
  | PyFloat _ => None
  | PyStr s => if plain s then Some (quote ++ s ++ quote)%string else None
  | PyList l =>
      match sequence (map plain_dumps l) with
      | Some parts => Some ("[" ++ join parts ++ "]")%string
      | None => None
      end
  | PyDict items =>
      match sequence (map (fun kv =>
                             match plain_dumps (snd kv) with
                             | Some text =>
                                 if plain (fst kv)
                                 then Some (quote ++ fst kv ++ quote ++ ": " ++ text)%string
                                 else None
                             | None => None
                             end) items) with
      | Some parts => Some ("{" ++ join parts ++ "}")%string
      | None => None
      end
  end.

(** Projections that leave the recipe as the stored text. *)
Definition text_long (d : Drink) : pyval :=
  PyDict [("id", id_value d); ("title", title d); ("recipe", PyStr (recipe d))].

Definition text_short (d : Drink) : pyval :=
  PyDict [("id", id_value d); ("title", title d)].

Definition keys : gmap string string := {[ "key-1" := "secret-1" ]}.

(** A store that commits everything, and one that refuses everything. *)
Definition env : Env :=
  {| dumps := plain_dumps; long := text_long; short := text_short;
     accepts := fun _ _ => true; known_keys := keys; now := 1000 |}.

Definition env_down : Env :=
  {| dumps := plain_dumps; long := text_long; short := text_short;
     accepts := fun _ _ => false; known_keys := keys; now := 1000 |}.

Definition manager_token : jwt :=
  {| kid := Some "key-1"; iss := Some "issuer"; aud := Some "drinks"; sub := "manager";
     exp := 2000; signed_with := "secret-1";
     permissions := Some ["get:drinks-detail"; "post:drinks"; "patch:drinks"; "delete:drinks"] |}.

Definition barista_token : jwt :=
  {| kid := Some "key-1"; iss := Some "issuer"; aud := Some "drinks"; sub := "barista";
     exp := 2000; signed_with := "secret-1";
     permissions := Some ["get:drinks-detail"] |}.

Definition as_bearer (t : jwt) (body : option pyval) : request :=
  {| auth_header := Some {| bearer := true; token := Some t |}; json := body |}.

Definition latte : row :=
  {| row_title := PyStr "latte"; row_recipe := "[]" |}.

Definition menu : gmap Z row := {[ 1 := latte ]}.

(** A transaction that inserts one drink. *)
Definition add_mocha : Transaction.t :=
  Transaction.success
    (fun drink => jsonify (PyDict [("success", PyBool true); ("drinks", PyList [text_long drink])]))
    (Store.insert {| id := None; title := PyStr "mocha"; recipe := "[]" |}).

End Demo.

(** ** Notions for the properties of the routes together *)

Section Summaries.
Context `{Env}.

(** The row a PATCH whose body is the dict [items] leaves for a drink
    stored as [rw]: a truthy title replaces the title, a truthy recipe is
    serialized and replaces the recipe; [None] when the serialization
    raises. *)
Definition patch_row (items : list (string * pyval)) (rw : row) : option row :=
  let t := default (PyStr "") (dict_lookup "title" items) in
  let rc := default (PyList []) (dict_lookup "recipe" items) in
  let t' := if truthy t then t else row_title rw in
  if truthy rc
  then match dumps rc with
       | Some text => Some {| row_title := t'; row_recipe := text |}
       | None => None
       end
  else Some {| row_title := t'; row_recipe := row_recipe rw |}.

End Summaries.

(** The value under [key] in a JSON body. *)
Definition body_field (key : string) (resp : response) : option pyval :=
  match resp_body resp with
  | Json (PyDict items) => dict_lookup key items
  | _ => None
  end.

(** The permission the decorator of a route asks for. *)
Definition required_permission (rt : route) : option string :=
  match rt with
  | GET_drinks => None
  | GET_drinks_detail => Some "get:drinks-detail"
  | POST_drinks => Some "post:drinks"
  | PATCH_drinks _ => Some "patch:drinks"
  | DELETE_drinks _ => Some "delete:drinks"
  end.

(** The statuses of the authorization errors. *)
Definition auth_status (code : Z) : Prop := code = 400 \/ code = 401 \/ code = 403.

(** The statuses a route can answer with. *)
Definition possible_statuses (rt : route) : list Z :=
  match rt with
  | GET_drinks => [200]
  | GET_drinks_detail => [200; 400; 401; 403]
  | POST_drinks => [200; 400; 401; 403; 422; 500]
  | PATCH_drinks _ => [200; 400; 401; 403; 404; 422; 500]
  | DELETE_drinks _ => [200; 400; 401; 403; 404; 500]
  end.

(** * Properties *)

(** ** The store *)

Module StoreFacts.

Lemma key_le_max (l : list (Z * row)) (i : Z) (r : row) :
  (i, r) ∈ l -> i <= foldr (fun kv acc => Z.max kv.1 acc) 0 l.
Proof.
  induction l as [|kv l IH]; intros Hin.
  - inversion Hin.
  - apply elem_of_cons in Hin as [<-|Hin]; simpl.
    + lia.
    + specialize (IH Hin). lia.
Qed.

(** The identifier the store assigns is not in use. *)
Lemma fresh_id_fresh (s : gmap Z row) : s !! Store.fresh_id s = None.
Proof.
  destruct (s !! Store.fresh_id s) as [r|] eqn:E; [|done].
  apply elem_of_map_to_list in E. apply key_le_max in E.
  unfold Store.fresh_id in E. lia.
Qed.

Lemma elem_of_all (s : gmap Z row) (d : Drink) :
  d ∈ Store.all s <-> exists i r, s !! i = Some r /\ d = drink_of i r.
Proof.
  unfold Store.all. rewrite list_elem_of_fmap. split.
  - intros [[i r] [-> Hin]]. apply elem_of_map_to_list in Hin. eauto.
  - intros (i & r & Hs & ->). exists (i, r). split; [done|].
    by apply elem_of_map_to_list.
Qed.

Lemma get_Some (s : gmap Z row) (i : Z) (r : row) :
  s !! i = Some r -> Store.get i s = Some (drink_of i r).
Proof. intros E. unfold Store.get. by rewrite E. Qed.

Lemma get_None (s : gmap Z row) (i : Z) :
  s !! i = None -> Store.get i s = None.
Proof. intros E. unfold Store.get. by rewrite E. Qed.

End StoreFacts.

(** ** The error handlers *)

Lemma respond_Raise (h : handler) (s s' : gmap Z row) (e : exn) (evs : list event) :
  h s = (Raise e, s', evs) -> respond h s = (handle_exception e, s', evs).
Proof. intros E. unfold respond. by rewrite E. Qed.

(** ** PATCH /drinks/<id> *)

Section Update.
Context `{Env}.

(** Without a drink under [id] the unit of work aborts with 404 before
    it looks at the request. *)
Lemma update_drink_absent (id : Z) (r : request) (s : gmap Z row) :
  s !! id = None ->
  update_drink id r s = (Raise (HTTPException 404), s, [RunUnit; Rollback]).
Proof.
  intros E. unfold update_drink, Transaction.run, Transaction.success, bind; simpl.
  unfold Store.query_get. by rewrite (StoreFacts.get_None _ _ E).
Qed.

End Update.

(** C8: a PATCH on an id that no stored drink has is answered with 404 and
    leaves the store as it was. *)
Theorem update_drink_not_found `{Env} (id : Z) (r : request) (s : gmap Z row) :
  s !! id = None ->
  update_drink id r s = (Raise (HTTPException 404), s, [RunUnit; Rollback]) /\
  let '(resp, s', _) := respond (update_drink id r) s in
  resp_status resp = 404 /\ uniform_error resp = true /\ s' = s.
Proof.
  intros E. pose proof (update_drink_absent id r s E) as Hu.
  split; [done|]. by rewrite (respond_Raise _ _ _ _ _ Hu).
Qed.

Lemma update_drink_not_found_witness :
  Demo.menu !! 7 = None /\
  (respond (@update_drink Demo.env 7 (Demo.as_bearer Demo.manager_token None))
     Demo.menu).1.2 = Demo.menu.
Proof.
  split; [reflexivity|].
  pose proof (@update_drink_not_found Demo.env 7 (Demo.as_bearer Demo.manager_token None)
                Demo.menu eq_refl) as [_ Hw].
  destruct (respond _ _) as [[resp s'] evs]. by destruct Hw as (_ & _ & ->).
Defined.

(** C10: the update handler looks the drink up before it reads the
    request: on an id that no stored drink has the answer is 404 whatever
    the body is, also when the body does not parse, and a 422 is only ever
    answered for a drink that exists. *)
Theorem update_drink_existence_first `{Env} (id : Z) (r : request) (s : gmap Z row) :
  (s !! id = None -> (respond (update_drink id r) s).1.1 = resource_not_found (HTTPException 404)) /\
  (s !! id = None -> json r = None -> resp_status (respond (update_drink id r) s).1.1 = 404) /\
  (resp_status (respond (update_drink id r) s).1.1 = 422 -> is_Some (s !! id)) /\
  (is_Some (s !! id) -> json r = None -> resp_status (respond (update_drink id r) s).1.1 = 422).
Proof.
  assert (Hmiss : s !! id = None ->
                  (respond (update_drink id r) s).1.1 = resource_not_found (HTTPException 404)).
  { intros E. by rewrite (respond_Raise _ _ _ _ _ (update_drink_absent id r s E)). }
  split; [exact Hmiss|]. split; [|split].
  - intros E _. by rewrite (Hmiss E).
  - intros Hst. destruct (s !! id) as [rw|] eqn:E; [by eexists|].
    rewrite (Hmiss eq_refl) in Hst. discriminate Hst.
  - intros [rw E] Hj.
    unfold respond, update_drink, Transaction.run, Transaction.success, bind; simpl.
    unfold Store.query_get. rewrite (StoreFacts.get_Some _ _ _ E).
    unfold try_except, update_drink_apply, bind, get_json. rewrite Hj. reflexivity.
Qed.

Lemma update_drink_existence_first_witness :
  resp_status (respond (@update_drink Demo.env 7 (Demo.as_bearer Demo.manager_token None))
                 Demo.menu).1.1 = 404.
Proof.
  apply (@update_drink_existence_first Demo.env 7 (Demo.as_bearer Demo.manager_token None)
           Demo.menu); reflexivity.
Defined.

(** ** POST /drinks *)

Section Create.
Context `{Env}.

(** When it raises: the body does not parse, is not a dict, or the
    recipe cannot be serialized. *)
Lemma post_drink_parse_raises (r : request) (s : gmap Z row) :
  (exists e, (post_drink_parse r s).1 = Raise e) <->
  json r = None \/
  (exists v, json r = Some v /\ forall items, v <> PyDict items) \/
  (exists items, json r = Some (PyDict items) /\
                 dumps (default (PyList []) (dict_lookup "recipe" items)) = None).
Proof.
  unfold post_drink_parse, bind, get_json, or_raise.
  destruct (json r) as [v|]; simpl.
  - destruct v; simpl;
      try (split; [intros _; right; left; eexists; split; [done|]; by intros ? |
                   intros _; by eexists]).
    destruct (dumps (default (PyList []) (dict_lookup "recipe" items))) as [text|] eqn:E;
      simpl.
    + split; [intros [e He]; discriminate He|].
      intros [Hn|[(v & Hv & Hd)|(items' & Hi & Hd)]].
      * discriminate Hn.
      * injection Hv as <-. by destruct (Hd items).
      * injection Hi as <-. rewrite E in Hd. discriminate Hd.
    + split; [|intros _; by eexists].
      intros _. right; right. by eexists.
  - split; [by left | intros; by eexists].
Qed.

Lemma post_drink_raised (r : request) (s s1 : gmap Z row) (e : exn) :
  post_drink_parse r s = (Raise e, s1) ->
  post_drink r s = (Raise (HTTPException 422), s, [RunUnit; Rollback]).
Proof.
  intros E. unfold post_drink, Transaction.run, Transaction.success; simpl.
  unfold bind at 1. unfold try_except. by rewrite E.
Qed.

End Create.

(** C2: when reading the request or building the drink raises, whatever
    the error, the create handler answers 422 and the store is as before:
    nothing is inserted.  A recipe that cannot be serialized is one of the
    ways to raise. *)
Theorem post_drink_unprocessable `{Env} (r : request) (s : gmap Z row) :
  ((exists e, (post_drink_parse r s).1 = Raise e) ->
   post_drink r s = (Raise (HTTPException 422), s, [RunUnit; Rollback]) /\
   let '(resp, s', evs) := respond (post_drink r) s in
   resp_status resp = 422 /\ uniform_error resp = true /\ s' = s /\
   occurs Commit evs = false) /\
  (forall items,
     json r = Some (PyDict items) ->
     dumps (default (PyList []) (dict_lookup "recipe" items)) = None ->
     exists e, (post_drink_parse r s).1 = Raise e).
Proof.
  split.
  - intros [e E]. destruct (post_drink_parse r s) as [res s1] eqn:Ep. simpl in E. subst res.
    pose proof (post_drink_raised r s s1 e Ep) as Hp.
    split; [done|]. by rewrite (respond_Raise _ _ _ _ _ Hp).
  - intros items Hj Hd. apply post_drink_parse_raises. right; right. eauto.
Qed.

Lemma post_drink_unprocessable_witness :
  (exists e, (@post_drink_parse Demo.env (Demo.as_bearer Demo.manager_token None) Demo.menu).1
             = Raise e) /\
  (respond (@post_drink Demo.env (Demo.as_bearer Demo.manager_token None)) Demo.menu).1.2
  = Demo.menu.
Proof.
  assert (Hr : exists e, (@post_drink_parse Demo.env (Demo.as_bearer Demo.manager_token None)
                            Demo.menu).1 = Raise e)
    by (eexists; reflexivity).
  split; [exact Hr|].
  destruct (@post_drink_unprocessable Demo.env (Demo.as_bearer Demo.manager_token None)
              Demo.menu) as [Hw _].
  destruct (Hw Hr) as [_ Hs].
  destruct (respond _ _) as [[resp s'] evs]. by destruct Hs as (_ & _ & -> & _).
Defined.

Section CreateSuccess.
Context `{Env}.

Lemma post_drink_parse_dict (r : request) (items : list (string * pyval)) (text : string)
      (s : gmap Z row) :
  json r = Some (PyDict items) ->
  dumps (default (PyList []) (dict_lookup "recipe" items)) = Some text ->
  post_drink_parse r s =
    (Return {| id := None; title := default (PyStr "") (dict_lookup "title" items);
               recipe := text |}, s).
Proof.
  intros Hj Hd. unfold post_drink_parse, bind, get_json, or_raise. rewrite Hj. simpl.
  by rewrite Hd.
Qed.

End CreateSuccess.

(** C9: on a body that is a dict the create handler reads [title] with
    the empty string as default and [recipe] with the empty list as
    default and inserts a new drink with these values under a fresh
    identifier; when the store commits, the answer has status 200 and
    carries the new drink in long projection in a list of one element, and
    the drink is in the store afterwards.  On the empty dict the new drink
    has the empty title and the serialized empty list as recipe. *)
Theorem post_drink_creates `{Env} (r : request) (items : list (string * pyval))
        (text : string) (s : gmap Z row) :
  json r = Some (PyDict items) ->
  dumps (default (PyList []) (dict_lookup "recipe" items)) = Some text ->
  let i := Store.fresh_id s in
  let d := {| id := Some i;
              title := default (PyStr "") (dict_lookup "title" items);
              recipe := text |} in
  accepts s (<[i := row_of d]> s) = true ->
  respond (post_drink r) s =
    (Response (Json (PyDict [("success", PyBool true); ("drinks", PyList [long d])])) 200,
     <[i := row_of d]> s, [RunUnit; Commit]) /\
  s !! i = None /\
  Store.get i (<[i := row_of d]> s) = Some d /\
  d ∈ Store.all (<[i := row_of d]> s) /\
  (forall j, j <> i -> (<[i := row_of d]> s) !! j = s !! j) /\
  (items = [] -> title d = PyStr "" /\ dumps (PyList []) = Some (recipe d)).
Proof.
  intros Hj Hd i d Hok.
  assert (Hget : Store.get i (<[i := row_of d]> s) = Some d).
  { unfold Store.get. by rewrite lookup_insert_eq. }
  split; [|split; [apply StoreFacts.fresh_id_fresh|split; [exact Hget|split; [|split]]]].
  - unfold respond, post_drink, Transaction.run, Transaction.success; simpl.
    unfold bind at 1. unfold try_except.
    rewrite (post_drink_parse_dict r items text s Hj Hd).
    unfold bind, Store.insert, ret; simpl. fold i.
    change (<[i:=row_of {| id := None; title := default (PyStr "") (dict_lookup "title" items);
                          recipe := text |}]> s) with (<[i := row_of d]> s).
    by rewrite Hok.
  - apply StoreFacts.elem_of_all. exists i, (row_of d). split; [apply lookup_insert_eq|done].
  - intros j Hne. by apply lookup_insert_ne.
  - intros ->. split; [done|]. exact Hd.
Qed.

Lemma post_drink_creates_witness :
  let r := Demo.as_bearer Demo.manager_token (Some (PyDict [])) in
  let d := {| id := Some 2; title := PyStr ""; recipe := "[]" |} in
  (respond (@post_drink Demo.env r) Demo.menu).1.1 =
    Response (Json (PyDict [("success", PyBool true); ("drinks", PyList [Demo.text_long d])])) 200
  /\ Store.get 2 (respond (@post_drink Demo.env r) Demo.menu).1.2 = Some d.
Proof.
  intros r d.
  destruct (@post_drink_creates Demo.env r [] "[]" Demo.menu eq_refl eq_refl eq_refl)
    as (Hr & _ & Hg & _).
  rewrite Hr. split; [reflexivity|exact Hg].
Defined.

(** ** DELETE /drinks/<id> *)

Section Delete.
Context `{Env}.

Lemma delete_drinks_absent (id : Z) (r : request) (s : gmap Z row) :
  s !! id = None ->
  delete_drinks id r s = (Raise (HTTPException 404), s, [RunUnit; Rollback]).
Proof.
  intros E. unfold delete_drinks, Transaction.run, Transaction.success, bind; simpl.
  unfold Store.query_get. by rewrite (StoreFacts.get_None _ _ E).
Qed.

Lemma delete_drinks_present (id : Z) (r : request) (s : gmap Z row) (rw : row) :
  s !! id = Some rw ->
  delete_drinks id r s =
    if accepts s (delete id s)
    then (Return (jsonify (PyDict [("success", PyBool true); ("delete", PyInt id)])),
          delete id s, [RunUnit; Commit])
    else (Raise (HTTPException 500), s, [RunUnit; CommitFailed; Rollback]).
Proof.
  intros E. unfold delete_drinks, Transaction.run, Transaction.success, bind; simpl.
  unfold Store.query_get. by rewrite (StoreFacts.get_Some _ _ _ E).
Qed.

(** A DELETE that is answered with 200 has removed the row. *)
Lemma delete_drinks_ok_gone (id : Z) (r : request) (s s' : gmap Z row)
      (resp : response) (evs : list event) :
  respond (delete_drinks id r) s = (resp, s', evs) ->
  resp_status resp = 200 ->
  s' !! id = None.
Proof.
  intros Hr Hst. destruct (s !! id) as [rw|] eqn:E.
  - unfold respond in Hr. rewrite (delete_drinks_present id r s rw E) in Hr.
    destruct (accepts s (delete id s)).
    + injection Hr as <- <- <-. apply lookup_delete_eq.
    + injection Hr as <- <- <-. discriminate Hst.
  - rewrite (respond_Raise _ _ _ _ _ (delete_drinks_absent id r s E)) in Hr.
    injection Hr as <- <- <-. discriminate Hst.
Qed.

Lemma repeat_delete_absent (id : Z) (rs : list request) (s : gmap Z row) :
  s !! id = None ->
  repeat_delete id rs s = (map (fun _ => resource_not_found (HTTPException 404)) rs, s).
Proof.
  intros E. induction rs as [|r rs IH]; simpl; [done|].
  rewrite (respond_Raise _ _ _ _ _ (delete_drinks_absent id r s E)).
  by rewrite IH.
Qed.

End Delete.

(** C5: a DELETE on an id that no drink has is answered with 404; on an
    id of a stored drink, when the store commits, the drink is removed, a
    later listing does not contain it, and the body is success true with
    the deleted id under delete, not the drink itself. *)
Theorem delete_drinks_spec `{Env} (id : Z) (r : request) (s : gmap Z row) :
  (s !! id = None ->
   let '(resp, s', _) := respond (delete_drinks id r) s in
   resp_status resp = 404 /\ s' = s) /\
  (is_Some (s !! id) ->
   accepts s (delete id s) = true ->
   respond (delete_drinks id r) s =
     (Response (Json (PyDict [("success", PyBool true); ("delete", PyInt id)])) 200,
      delete id s, [RunUnit; Commit]) /\
   Store.get id (delete id s) = None /\
   (forall d, d ∈ Store.all (delete id s) -> id_value d <> PyInt id) /\
   (forall j, j <> id -> delete id s !! j = s !! j)).
Proof.
  split.
  - intros E. by rewrite (respond_Raise _ _ _ _ _ (delete_drinks_absent id r s E)).
  - intros [rw E] Hok. split; [|split; [|split]].
    + unfold respond. rewrite (delete_drinks_present id r s rw E), Hok. reflexivity.
    + apply StoreFacts.get_None, lookup_delete_eq.
    + intros d Hd. apply StoreFacts.elem_of_all in Hd as (i & rw' & Hi & ->). simpl.
      intros [= ->]. rewrite lookup_delete_eq in Hi. discriminate Hi.
    + intros j Hne. by apply lookup_delete_ne.
Qed.

Lemma delete_drinks_spec_witness :
  is_Some (Demo.menu !! 1) /\
  respond (@delete_drinks Demo.env 1 (Demo.as_bearer Demo.manager_token None)) Demo.menu =
    (Response (Json (PyDict [("success", PyBool true); ("delete", PyInt 1)])) 200,
     delete 1 Demo.menu, [RunUnit; Commit]).
Proof.
  assert (Hs : is_Some (Demo.menu !! 1)) by (eexists; reflexivity).
  split; [exact Hs|].
  destruct (@delete_drinks_spec Demo.env 1 (Demo.as_bearer Demo.manager_token None) Demo.menu)
    as [_ Hw].
  destruct (Hw Hs eq_refl) as [Hr _]. exact Hr.
Defined.

(** C6: once a DELETE on an id has succeeded, every further DELETE on the
    same id is answered with 404, never with a second success. *)
Theorem delete_drinks_twice `{Env} (id : Z) (r : request) (s s' : gmap Z row)
        (resp : response) (evs : list event) (rs : list request) :
  respond (delete_drinks id r) s = (resp, s', evs) ->
  resp_status resp = 200 ->
  Forall (fun resp' => resp_status resp' = 404) (repeat_delete id rs s').1 /\
  length (repeat_delete id rs s').1 = length rs /\
  (repeat_delete id rs s').2 = s'.
Proof.
  intros Hr Hst. pose proof (delete_drinks_ok_gone id r s s' resp evs Hr Hst) as Hgone.
  rewrite (repeat_delete_absent id rs s' Hgone). simpl. split; [|split; [|done]].
  - apply Forall_forall. intros resp' Hin. apply list_elem_of_fmap in Hin as (? & -> & _). done.
  - apply length_map.
Qed.

Lemma delete_drinks_twice_witness :
  let r := Demo.as_bearer Demo.manager_token None in
  Forall (fun resp' => resp_status resp' = 404)
         (@repeat_delete Demo.env 1 [r; r; r] (delete 1 Demo.menu)).1.
Proof.
  intros r.
  apply (@delete_drinks_twice Demo.env 1 r Demo.menu (delete 1 Demo.menu)
           (Response (Json (PyDict [("success", PyBool true); ("delete", PyInt 1)])) 200)
           [RunUnit; Commit] [r; r; r]); reflexivity.
Defined.

(** ** PATCH /drinks/<id> on a stored drink *)

Section UpdatePresent.
Context `{Env}.

Lemma supplied_false (key : string) (r : request) :
  supplied key r = false -> supplied_value key r = None.
Proof.
  unfold supplied. intros Hs. apply bool_decide_eq_false in Hs.
  destruct (supplied_value key r); [|done]. destruct Hs. by eexists.
Qed.

(** What the [try] block of [update_drink] has done when it returns:
    the drink it returns is the row now in the session, no other row
    has changed, and a field has changed only to a supplied value. *)
Lemma update_drink_apply_spec (i : Z) (r : request) (s : gmap Z row) (rw : row) :
  s !! i = Some rw ->
  match update_drink_apply r (drink_of i rw) s with
  | (Raise _, _) => True
  | (Return d, s1) =>
      exists rw',
        d = drink_of i rw' /\
        s1 !! i = Some rw' /\
        (forall j, j <> i -> s1 !! j = s !! j) /\
        (supplied_value "title" r = None -> row_title rw' = row_title rw) /\
        (supplied_value "recipe" r = None -> row_recipe rw' = row_recipe rw) /\
        (forall v, supplied_value "title" r = Some v -> row_title rw' = v) /\
        (forall v, supplied_value "recipe" r = Some v -> dumps v = Some (row_recipe rw'))
  end.
Proof.
  intros E. destruct rw as [t0 rc0].
  unfold update_drink_apply, supplied_value, bind, get_json, or_raise.
  destruct (json r) as [v|]; simpl; [|done].
  destruct v; simpl; try done.
  destruct (dict_lookup "title" items) as [t|]; simpl;
    destruct (dict_lookup "recipe" items) as [rc|]; simpl.
  all: repeat match goal with
         | |- context [truthy ?x] => destruct (truthy x) eqn:?; simpl
         | |- context [dumps ?x] => destruct (dumps x) eqn:?; simpl
         end.
  all: try done.
  all: unfold Store.set_title, Store.set_recipe, Store.save, ret, raise; simpl.
  all: eexists (Row _ _); split; [reflexivity|]; simpl.
  all: split; [rewrite ?lookup_insert_eq; first [reflexivity | exact E] |].
  all: split; [intros j Hne; rewrite ?lookup_insert_ne by done; reflexivity |].
  all: repeat split; intros; congruence.
Qed.

End UpdatePresent.

(** C1: on a stored drink the update handler changes only the fields the
    body supplies with a value that counts as true: a field that is
    absent or falsy keeps its stored value (with only [title] supplied the
    recipe stays, with only [recipe] supplied the title stays), no other
    drink is touched, and on success the supplied fields have their new
    values. *)
Theorem update_drink_partial `{Env} (id : Z) (r : request) (s : gmap Z row) (rw : row) :
  s !! id = Some rw ->
  let '(resp, s', _) := respond (update_drink id r) s in
  exists rw',
    s' !! id = Some rw' /\
    (forall j, j <> id -> s' !! j = s !! j) /\
    (supplied "title" r = false -> row_title rw' = row_title rw) /\
    (supplied "recipe" r = false -> row_recipe rw' = row_recipe rw) /\
    (resp_status resp = 200 ->
     resp = jsonify (PyDict [("success", PyBool true);
                             ("drinks", PyList [long (drink_of id rw')])]) /\
     (forall v, supplied_value "title" r = Some v -> row_title rw' = v) /\
     (forall v, supplied_value "recipe" r = Some v -> dumps v = Some (row_recipe rw'))).
Proof.
  intros E. pose proof (update_drink_apply_spec id r s rw E) as Hspec.
  unfold respond, update_drink, Transaction.run, Transaction.success; simpl.
  unfold bind at 1. unfold Store.query_get. rewrite (StoreFacts.get_Some _ _ _ E).
  unfold bind, try_except.
  destruct (update_drink_apply r (drink_of id rw) s) as [[d|e] s1]; simpl.
  - destruct Hspec as (rw' & -> & Hi & Hj & Ht & Hr & Htv & Hrv).
    destruct (accepts s s1); simpl.
    + exists rw'. repeat split; try done.
      * intros Hs. by apply Ht, supplied_false.
      * intros Hs. by apply Hr, supplied_false.
    + exists rw. repeat split; try done; intros Hst; discriminate Hst.
  - exists rw. repeat split; try done; intros Hst; discriminate Hst.
Qed.

Lemma update_drink_partial_witness :
  let r := Demo.as_bearer Demo.manager_token (Some (PyDict [("title", PyStr "flat white")])) in
  Demo.menu !! 1 = Some Demo.latte /\
  exists rw', (respond (@update_drink Demo.env 1 r) Demo.menu).1.2 !! 1 = Some rw' /\
              row_recipe rw' = row_recipe Demo.latte.
Proof.
  intros r. split; [reflexivity|].
  pose proof (@update_drink_partial Demo.env 1 r Demo.menu Demo.latte eq_refl) as Hw.
  destruct (respond _ _) as [[resp s'] evs].
  destruct Hw as (rw' & Hi & _ & _ & Hr & _).
  exists rw'. split; [exact Hi|]. apply Hr. reflexivity.
Defined.

(** ** The transaction wrapper *)

Section TransactionFacts.
Context `{Env}.

(** A run raises what the unit of work raised, or a server error when
    the commit failed. *)
Lemma run_Raise (self : Transaction.t) (s s' : gmap Z row) (e : exn) (evs : list event) :
  Transaction.run self s = (Raise e, s', evs) ->
  (exists s1, Transaction.tx self s = (Raise e, s1)) \/ e = HTTPException 500.
Proof.
  unfold Transaction.run. destruct (Transaction.tx self s) as [[d|e0] s1].
  - destruct (accepts s s1); intros [= <- <- <-]. by right.
  - intros [= <- <- <-]. left. by eexists.
Qed.

End TransactionFacts.

(** C3, as the specification states it, fails: when the store refuses the
    commit the unit of work has returned normally and nothing is
    committed. *)
Lemma transaction_invariant_fails_on_refused_commit :
  ~ @transaction_invariant Demo.env_down Demo.add_mocha Demo.menu.
Proof.
  unfold transaction_invariant. simpl. intros (_ & [_ Hc] & _).
  specialize (Hc eq_refl). discriminate Hc.
Qed.

(** C3 (amended): in every run of the transaction wrapper the unit of work
    executes exactly once; the changes are committed if and only if the
    unit of work returns normally and the store accepts the commit;
    exactly one of commit and rollback occurs; after a commit the store
    holds the changes of the unit of work, after a rollback it is as
    before. *)
Theorem transaction_commit_or_rollback `{Env} (self : Transaction.t) (s : gmap Z row) :
  let '(res, s', evs) := Transaction.run self s in
  length (filter (fun e => e = RunUnit) evs) = 1%nat /\
  (occurs Commit evs = true <->
   returns_normally self s = true /\ accepts s (Transaction.tx self s).2 = true) /\
  xorb (occurs Commit evs) (occurs Rollback evs) = true /\
  (occurs Commit evs = true -> s' = (Transaction.tx self s).2) /\
  (occurs Rollback evs = true -> s' = s) /\
  (returns_normally self s = false -> exists e, res = Raise e /\ (Transaction.tx self s).1 = Raise e).
Proof.
  unfold Transaction.run, returns_normally.
  destruct (Transaction.tx self s) as [[d|e] s1]; simpl.
  - destruct (accepts s s1); simpl; repeat split; try done; try (by intros [? ?]).
  - repeat split; try done; try (by intros [? ?]). intros _. by eexists.
Qed.

Lemma transaction_commit_or_rollback_witness :
  let '(res, s', evs) := @Transaction.run Demo.env Demo.add_mocha Demo.menu in
  occurs Commit evs = true /\ s' = (Transaction.tx Demo.add_mocha Demo.menu).2.
Proof.
  pose proof (@transaction_commit_or_rollback Demo.env Demo.add_mocha Demo.menu) as Hw.
  destruct (Transaction.run _ _) as [[res s'] evs].
  destruct Hw as (_ & Hc & _ & Hs & _).
  assert (Ho : occurs Commit evs = true) by (apply Hc; split; reflexivity).
  split; [exact Ho | exact (Hs Ho)].
Defined.

(** ** The authorization guard *)

Section Guard.
Context `{Env}.

(** A token that verifies has a valid signature and has not expired,
    and its permission set is the permissions claim. *)
Lemma verify_Return (h : option authorization) (tok : Auth.AuthToken) :
  Auth.verify h = Return tok ->
  exists a t,
    h = Some a /\ bearer a = true /\ token a = Some t /\
    Auth.signature_valid t = true /\ Auth.expired t = false /\
    Auth.permission_set tok = list_to_set (default [] (permissions t)).
Proof.
  unfold Auth.verify. destruct h as [a|]; [|discriminate].
  destruct (bearer a) eqn:Hb; [|discriminate].
  destruct (token a) as [t|] eqn:Ht; [|discriminate].
  destruct (kid t) eqn:Hk; [|discriminate].
  destruct (iss t); [|discriminate]. destruct (aud t); [|discriminate].
  destruct (Auth.signature_valid t) eqn:Hs; simpl; [|discriminate].
  destruct (Auth.expired t) eqn:He; [discriminate|].
  intros [= <-]. exists a, t. by repeat split.
Qed.

(** Every exception of the verifier is an authorization error. *)
Lemma verify_Raise (h : option authorization) (e : exn) :
  Auth.verify h = Raise e -> exists error status_code, e = AuthError error status_code.
Proof.
  unfold Auth.verify. intros Hv.
  repeat match type of Hv with
         | context [match ?x with _ => _ end] => destruct x
         end;
    try discriminate Hv; injection Hv as <-; by do 2 eexists.
Qed.

(** A request the guard turns away: the answer is an authorization
    error that does not depend on the view function, the store is as
    before and nothing has run. *)
Lemma requires_auth_rejects (permission : string) (f : request -> handler)
      (r : request) (s : gmap Z row) :
  authorized permission r = false ->
  exists error status_code,
    forall g, Auth.requires_auth permission g r s =
              (Raise (AuthError error status_code), s, []).
Proof.
  unfold authorized, Auth.requires_auth.
  destruct (Auth.verify (auth_header r)) as [tok|e] eqn:Hv.
  - intros Hd. apply bool_decide_eq_false in Hd.
    exists "InsufficientScope", 403. intros g. by rewrite decide_False.
  - intros _. destruct (verify_Raise _ _ Hv) as (error & code & ->).
    by exists error, code.
Qed.

End Guard.

(** C4: behind the guard the view function runs only if the token has
    verified, with a valid signature and not expired, and the required
    permission is in its permission set; otherwise the answer does not
    depend on the view function at all.  A token that verifies but lacks
    the permission gives InsufficientScope with status 403. *)
Theorem requires_auth_guards `{Env} (permission : string) (f : request -> handler)
        (r : request) (s : gmap Z row) :
  (let '(_, _, evs) := Auth.requires_auth permission f r s in
   occurs Invoke evs = true ->
   exists t tok,
     token_of r = Some t /\ Auth.verify (auth_header r) = Return tok /\
     Auth.signature_valid t = true /\ Auth.expired t = false /\
     permission ∈ Auth.permission_set tok /\
     Auth.requires_auth permission f r s =
       (let '(res, s', evs') := f r s in (res, s', Invoke :: evs'))) /\
  (authorized permission r = false ->
   occurs Invoke (Auth.requires_auth permission f r s).2 = false /\
   (Auth.requires_auth permission f r s).1.2 = s /\
   forall g, Auth.requires_auth permission g r s = Auth.requires_auth permission f r s) /\
  (forall tok,
     Auth.verify (auth_header r) = Return tok ->
     permission ∉ Auth.permission_set tok ->
     Auth.requires_auth permission f r s = (Raise Auth.InsufficientScope, s, []) /\
     respond (Auth.requires_auth permission f r) s =
       (Response (Json (PyDict [("success", PyBool false); ("error", PyInt 403);
                                ("message", PyStr "InsufficientScope")])) 403, s, [])).
Proof.
  split; [|split].
  - destruct (authorized permission r) eqn:Ha.
    + unfold authorized in Ha. unfold Auth.requires_auth.
      destruct (Auth.verify (auth_header r)) as [tok|e] eqn:Hv; [|discriminate Ha].
      apply bool_decide_eq_true in Ha. rewrite decide_True by done.
      destruct (f r s) as [[res s'] evs'] eqn:Hf. intros _.
      destruct (verify_Return _ _ Hv) as (a & t & Hh & _ & Ht & Hs & He & _).
      exists t, tok. repeat split; try done.
      unfold token_of. rewrite Hh. simpl. exact Ht.
    + destruct (requires_auth_rejects permission f r s Ha) as (error & code & Hg).
      rewrite (Hg f). intros Ho. discriminate Ho.
  - intros Ha. destruct (requires_auth_rejects permission f r s Ha) as (error & code & Hg).
    rewrite (Hg f). repeat split; try done.
  - intros tok Hv Hn.
    assert (Hr : Auth.requires_auth permission f r s = (Raise Auth.InsufficientScope, s, [])).
    { unfold Auth.requires_auth. rewrite Hv. by rewrite decide_False. }
    split; [exact Hr|]. by rewrite (respond_Raise _ _ _ _ _ Hr).
Qed.

Lemma requires_auth_guards_witness :
  let r := Demo.as_bearer Demo.barista_token (Some (PyDict [])) in
  @authorized Demo.env "post:drinks" r = false /\
  (@Auth.requires_auth Demo.env "post:drinks" (@post_drink Demo.env) r Demo.menu).1.2 = Demo.menu.
Proof.
  intros r.
  assert (Ha : @authorized Demo.env "post:drinks" r = false) by reflexivity.
  split; [exact Ha|].
  destruct (@requires_auth_guards Demo.env "post:drinks" (@post_drink Demo.env) r Demo.menu)
    as (_ & Hw & _).
  destruct (Hw Ha) as (_ & Hs & _). exact Hs.
Defined.

(** ** Failure responses *)

Section Failures.
Context `{Env}.

Lemma post_drink_raises (r : request) (s s' : gmap Z row) (e : exn) (evs : list event) :
  post_drink r s = (Raise e, s', evs) -> e = HTTPException 422 \/ e = HTTPException 500.
Proof.
  intros Hp. apply run_Raise in Hp as [[s1 Ht]| ->]; [left|by right].
  revert Ht. unfold Transaction.success; simpl. unfold bind at 1, try_except.
  destruct (post_drink_parse r s) as [[d|e0] s2]; simpl.
  - unfold bind, Store.insert, ret. discriminate.
  - unfold abort, raise. by intros [= <- _].
Qed.

Lemma update_drink_raises (i : Z) (r : request) (s s' : gmap Z row) (e : exn)
      (evs : list event) :
  update_drink i r s = (Raise e, s', evs) ->
  e = HTTPException 404 \/ e = HTTPException 422 \/ e = HTTPException 500.
Proof.
  intros Hp. apply run_Raise in Hp as [[s1 Ht]| ->]; [|by right; right].
  revert Ht. unfold Transaction.success; simpl. unfold bind at 1, Store.query_get.
  destruct (Store.get i s) as [d|].
  - unfold bind, try_except.
    destruct (update_drink_apply r d s) as [[d'|e0] s2]; simpl.
    + unfold ret. discriminate.
    + unfold abort, raise. intros [= <- _]. by right; left.
  - unfold abort, raise. intros [= <- _]. by left.
Qed.

Lemma delete_drinks_raises (i : Z) (r : request) (s s' : gmap Z row) (e : exn)
      (evs : list event) :
  delete_drinks i r s = (Raise e, s', evs) ->
  e = HTTPException 404 \/ e = HTTPException 500.
Proof.
  intros Hp. apply run_Raise in Hp as [[s1 Ht]| ->]; [left|by right].
  revert Ht. unfold Transaction.success; simpl. unfold bind at 1, Store.query_get.
  destruct (Store.get i s) as [d|].
  - unfold bind, Store.delete, ret. discriminate.
  - unfold abort, raise. by intros [= <- _].
Qed.

Lemma requires_auth_raises (permission : string) (f : request -> handler)
      (r : request) (s s' : gmap Z row) (e : exn) (evs : list event) :
  Auth.requires_auth permission f r s = (Raise e, s', evs) ->
  (exists error status_code, e = AuthError error status_code) \/
  (exists evs', f r s = (Raise e, s', evs')).
Proof.
  unfold Auth.requires_auth.
  destruct (Auth.verify (auth_header r)) as [tok|e0] eqn:Hv.
  - destruct (decide (permission ∈ Auth.permission_set tok)).
    + destruct (f r s) as [[res s1] evs1]. intros [= -> -> _]. right. by eexists.
    + intros [= <- _ _]. left. by do 2 eexists.
  - intros [= <- _ _]. left. by apply verify_Raise in Hv.
Qed.

Lemma view_raises (rt : route) (r : request) (s s' : gmap Z row) (e : exn)
      (evs : list event) :
  view rt r s = (Raise e, s', evs) -> route_exn e.
Proof.
  unfold route_exn. destruct rt; simpl.
  - unfold get_drinks. discriminate.
  - intros Hv. apply requires_auth_raises in Hv as [Ha|[evs' Hf]]; [by left|].
    unfold get_drinks_detail in Hf. discriminate Hf.
  - intros Hv. apply requires_auth_raises in Hv as [Ha|[evs' Hf]]; [by left|].
    apply post_drink_raises in Hf. right. destruct Hf as [Hf|Hf]; auto.
  - intros Hv. apply requires_auth_raises in Hv as [Ha|[evs' Hf]]; [by left|].
    apply update_drink_raises in Hf. right. destruct Hf as [Hf|[Hf|Hf]]; auto.
  - intros Hv. apply requires_auth_raises in Hv as [Ha|[evs' Hf]]; [by left|].
    apply delete_drinks_raises in Hf. right. destruct Hf as [Hf|Hf]; auto.
Qed.

End Failures.

(** C7, as the specification states it, fails for server errors: no error
    handler is registered for a 500, so the answer is the page of the
    framework and not the uniform error body; a create whose commit the
    store refuses is answered this way. *)
Lemma server_error_is_not_uniform :
  (handle_exception (HTTPException 500) = Response DefaultPage 500 /\
   uniform_error (handle_exception (HTTPException 500)) = false) /\
  let '(resp, _, _) := @app Demo.env_down POST_drinks
                         (Demo.as_bearer Demo.manager_token (Some (PyDict []))) Demo.menu in
  resp = Response DefaultPage 500 /\ uniform_error resp = false.
Proof. repeat split; reflexivity. Qed.

(** C7 (amended): every failure response for an authorization error, a
    404 or a 422 is a body of exactly success false, the numeric error
    code, which is the status, and a message string; at every route every
    failure other than the server error is one of these. *)
Theorem error_responses_uniform `{Env} :
  (forall e,
     has_errorhandler e = true ->
     uniform_error (handle_exception e) = true /\
     error_code (handle_exception e) = Some (resp_status (handle_exception e))) /\
  (forall rt r s e s' evs,
     view rt r s = (Raise e, s', evs) ->
     e <> HTTPException 500 ->
     has_errorhandler e = true /\
     app rt r s = (handle_exception e, s', evs)).
Proof.
  split.
  - intros [code|error status_code|name] Hh; simpl in *; [|done|done].
    apply orb_true_iff in Hh as [Hc|Hc]; apply Z.eqb_eq in Hc; subst code; done.
  - intros rt r s e s' evs Hv Hne. split.
    + destruct (view_raises rt r s s' e evs Hv) as [(error & code & ->)|[ -> |[ -> | -> ]]]; done.
    + unfold app. by apply respond_Raise.
Qed.

Lemma error_responses_uniform_witness :
  let r := Demo.as_bearer Demo.barista_token (Some (PyDict [])) in
  uniform_error (@app Demo.env POST_drinks r Demo.menu).1.1 = true /\
  resp_status (@app Demo.env POST_drinks r Demo.menu).1.1 = 403.
Proof.
  intros r.
  destruct (@error_responses_uniform Demo.env) as [Hu Hv].
  destruct (Hv POST_drinks r Demo.menu (AuthError "InsufficientScope" 403) Demo.menu []
              eq_refl ltac:(discriminate)) as [Hh Ha].
  rewrite Ha. split; [exact (proj1 (Hu _ Hh)) | reflexivity].
Defined.

(** * Further properties of the routes *)

(** ** The listings *)

Section Listings.
Context `{Env}.

Lemma drink_of_inj (i j : Z) (r1 r2 : row) :
  drink_of i r1 = drink_of j r2 -> (i, r1) = (j, r2).
Proof.
  destruct r1, r2. unfold drink_of; simpl. by intros [= -> -> ->].
Qed.


Lemma all_length (s : gmap Z row) : length (Store.all s) = size s.
Proof. unfold Store.all. by rewrite length_fmap, length_map_to_list. Qed.

Lemma all_insert (s : gmap Z row) (i : Z) (rw : row) :
  s !! i = None -> Store.all (<[i := rw]> s) ≡ₚ drink_of i rw :: Store.all s.
Proof.
  intros E. unfold Store.all. by rewrite (map_to_list_insert s i rw E).
Qed.

Lemma all_delete (s : gmap Z row) (i : Z) (rw : row) :
  s !! i = Some rw -> drink_of i rw :: Store.all (delete i s) ≡ₚ Store.all s.
Proof.
  intros E. unfold Store.all. by rewrite <- (map_to_list_delete s i rw E).
Qed.

End Listings.


(** X2: GET /drinks-detail with the permission lists the long projection
    of the very drinks GET /drinks lists, in the same order, and leaves
    the store as it is; without the permission the answer carries no
    drinks at all. *)
Theorem get_drinks_detail_lists `{Env} (r : request) (s : gmap Z row) :
  (authorized "get:drinks-detail" r = true ->
   exists ds,
     body_field "drinks" (app GET_drinks r s).1.1 = Some (PyList (short <$> ds)) /\
     app GET_drinks_detail r s =
       (Response (Json (PyDict [("success", PyBool true);
                                ("drinks", PyList (long <$> ds))])) 200, s, [Invoke])) /\
  (authorized "get:drinks-detail" r = false ->
   body_field "drinks" (app GET_drinks_detail r s).1.1 = None /\
   (app GET_drinks_detail r s).1.2 = s).
Proof.
  split.
  - intros Ha. exists (Store.all s). split; [reflexivity|].
    unfold app, respond, view, Auth.requires_auth. unfold authorized in Ha.
    destruct (Auth.verify (auth_header r)) as [tok|e]; [|discriminate Ha].
    apply bool_decide_eq_true in Ha. by rewrite decide_True.
  - intros Ha.
    destruct (requires_auth_rejects "get:drinks-detail" get_drinks_detail r s Ha)
      as (error & code & Hg).
    unfold app, view. by rewrite (respond_Raise _ _ _ _ _ (Hg get_drinks_detail)).
Qed.

Lemma get_drinks_detail_lists_witness :
  let r := Demo.as_bearer Demo.barista_token None in
  exists ds, @app Demo.env GET_drinks_detail r Demo.menu =
    (Response (Json (PyDict [("success", PyBool true);
                             ("drinks", PyList (Demo.text_long <$> ds))])) 200,
     Demo.menu, [Invoke]).
Proof.
  intros r.
  destruct (@get_drinks_detail_lists Demo.env r Demo.menu) as [Hw _].
  destruct (Hw eq_refl) as (ds & _ & Hd). by exists ds.
Defined.

(** ** What every route keeps *)

Section Outcomes.
Context `{Env}.

(** The statuses the verifier raises with. *)
Lemma verify_Raise_status (h : option authorization) (e : exn) :
  Auth.verify h = Raise e ->
  exists error status_code, e = AuthError error status_code /\ auth_status status_code.
Proof.
  unfold Auth.verify, auth_status. intros Hv.
  repeat match type of Hv with
         | context [match ?x with _ => _ end] => destruct x
         end;
    try discriminate Hv; injection Hv as <-; do 2 eexists; (split; [reflexivity|]); auto.
Qed.

Lemma occurs_Invoke (e : event) (evs : list event) :
  e <> Invoke -> occurs e (Invoke :: evs) = occurs e evs.
Proof.
  intros Hne. unfold occurs. apply bool_decide_ext. rewrite elem_of_cons.
  split; [intros [Heq|Hin]; [by destruct Hne|done] | by right].
Qed.

(** A run either commits and answers with the callback, or raises with
    the store as it was. *)
Lemma run_outcome (self : Transaction.t) (s : gmap Z row) :
  match Transaction.run self s with
  | (Return resp, s', evs) =>
      exists d, resp = Transaction.on_success self d /\ occurs Commit evs = true
  | (Raise e, s', evs) => s' = s /\ occurs Commit evs = false
  end.
Proof.
  unfold Transaction.run. destruct (Transaction.tx self s) as [[d|e] s1].
  - destruct (accepts s s1); [by exists d|done].
  - done.
Qed.

(** The guard keeps what the view function keeps. *)
Lemma requires_auth_outcome (Q : response -> list event -> Prop) (permission : string)
      (f : request -> handler) (r : request) (s : gmap Z row) :
  (forall resp evs, Q resp evs -> Q resp (Invoke :: evs)) ->
  match f r s with
  | (Return resp, _, evs) => Q resp evs
  | (Raise _, s', evs) => s' = s /\ occurs Commit evs = false
  end ->
  match Auth.requires_auth permission f r s with
  | (Return resp, _, evs) => Q resp evs
  | (Raise _, s', evs) => s' = s /\ occurs Commit evs = false
  end.
Proof.
  intros HQ Hf. unfold Auth.requires_auth.
  destruct (Auth.verify (auth_header r)) as [tok|e0]; [|done].
  destruct (decide (permission ∈ Auth.permission_set tok)) as [Hin|Hnin]; [|done].
  destruct (f r s) as [[[resp|e] s'] evs]; [by apply HQ|].
  destruct Hf as [-> Hc]. split; [done|]. by rewrite occurs_Invoke.
Qed.

(** What a view function answers with is a 200 that says success, and
    when it raises the store is as before and nothing was committed. *)
Lemma view_outcome (rt : route) (r : request) (s : gmap Z row) :
  match view rt r s with
  | (Return resp, _, _) =>
      resp_status resp = 200 /\ body_field "success" resp = Some (PyBool true)
  | (Raise _, s', evs) => s' = s /\ occurs Commit evs = false
  end.
Proof.
  destruct rt; simpl.
  - done.
  - by apply (requires_auth_outcome (fun resp _ => _)).
  - apply (requires_auth_outcome (fun resp _ => _)); [done|].
    unfold post_drink. match goal with |- context [Transaction.run ?t s] =>
      pose proof (run_outcome t s) as Hr; destruct (Transaction.run t s) as [[[resp|e] s'] evs] end;
      [|done]. by destruct Hr as (d & -> & _).
  - apply (requires_auth_outcome (fun resp _ => _)); [done|].
    unfold update_drink. match goal with |- context [Transaction.run ?t s] =>
      pose proof (run_outcome t s) as Hr; destruct (Transaction.run t s) as [[[resp|e] s'] evs] end;
      [|done]. by destruct Hr as (d & -> & _).
  - apply (requires_auth_outcome (fun resp _ => _)); [done|].
    unfold delete_drinks. match goal with |- context [Transaction.run ?t s] =>
      pose proof (run_outcome t s) as Hr; destruct (Transaction.run t s) as [[[resp|e] s'] evs] end;
      [|done]. by destruct Hr as (d & -> & _).
Qed.

Lemma requires_auth_raises_status (permission : string) (f : request -> handler)
      (r : request) (s s' : gmap Z row) (e : exn) (evs : list event) :
  Auth.requires_auth permission f r s = (Raise e, s', evs) ->
  (exists error code, e = AuthError error code /\ auth_status code) \/
  (exists evs', f r s = (Raise e, s', evs')).
Proof.
  unfold Auth.requires_auth.
  destruct (Auth.verify (auth_header r)) as [tok|e0] eqn:Hv.
  - destruct (decide (permission ∈ Auth.permission_set tok)) as [Hin|Hnin].
    + destruct (f r s) as [[res s1] evs1]. intros [= -> -> _]. right. by eexists.
    + intros [= <- _ _]. left. exists "InsufficientScope", 403.
      split; [done|]. unfold auth_status. auto.
  - intros [= <- _ _]. left. by apply verify_Raise_status in Hv.
Qed.

(** The exceptions that leave a route: an authorization error, only at
    a route with a guard, or one of the aborts of the view function. *)
Lemma view_raises_status (rt : route) (r : request) (s s' : gmap Z row) (e : exn)
      (evs : list event) :
  view rt r s = (Raise e, s', evs) ->
  (exists error code, e = AuthError error code /\ auth_status code /\
                      is_Some (required_permission rt)) \/
  (exists code, e = HTTPException code /\ code ∈ possible_statuses rt /\
                (code = 404 \/ code = 422 \/ code = 500)).
Proof.
  destruct rt; simpl; intros Hv.
  - unfold get_drinks in Hv. discriminate Hv.
  - apply requires_auth_raises_status in Hv as [(error & code & -> & Hs)|[evs' Hf]].
    + left. exists error, code. by repeat split.
    + unfold get_drinks_detail in Hf. discriminate Hf.
  - apply requires_auth_raises_status in Hv as [(error & code & -> & Hs)|[evs' Hf]].
    + left. exists error, code. by repeat split.
    + right. apply post_drink_raises in Hf as [-> | ->]; eexists;
        (split; [reflexivity|]); (split; [set_solver|auto]).
  - apply requires_auth_raises_status in Hv as [(error & code & -> & Hs)|[evs' Hf]].
    + left. exists error, code. by repeat split.
    + right. apply update_drink_raises in Hf as [-> |[-> | ->]]; eexists;
        (split; [reflexivity|]); (split; [set_solver|auto]).
  - apply requires_auth_raises_status in Hv as [(error & code & -> & Hs)|[evs' Hf]].
    + left. exists error, code. by repeat split.
    + right. apply delete_drinks_raises in Hf as [-> | ->]; eexists;
        (split; [reflexivity|]); (split; [set_solver|auto]).
Qed.

End Outcomes.

(** X3: each route other than GET /drinks is behind the permission its
    decorator names.  Without it the answer is an authorization error
    with status 400, 401 or 403, in the uniform error body, the store is
    as before and the view function has not run; with it the view
    function runs.  GET /drinks answers every request alike. *)
Theorem route_permission `{Env} (rt : route) (r : request) (s : gmap Z row) :
  (forall p, required_permission rt = Some p -> authorized p r = false ->
             exists error code,
               auth_status code /\
               app rt r s = (auth_error error code, s, [])) /\
  (forall p, required_permission rt = Some p -> authorized p r = true ->
             occurs Invoke (app rt r s).2 = true) /\
  (required_permission rt = None -> forall r', app rt r' s = app rt r s).
Proof.
  split; [|split].
  - intros p Hp Ha.
    assert (Hg : exists f, view rt = Auth.requires_auth p f).
    { destruct rt; simpl in *; try discriminate Hp; injection Hp as <-; by eexists. }
    destruct Hg as [f Hf].
    destruct (requires_auth_rejects p f r s Ha) as (error & code & Hg).
    pose proof (Hg f) as Hr.
    destruct (requires_auth_raises_status p f r s s _ [] Hr)
      as [(error' & code' & [= <- <-] & Hs)|[evs' Hv]].
    + exists error, code. split; [exact Hs|].
      unfold app. rewrite Hf. by rewrite (respond_Raise _ _ _ _ _ Hr).
    + unfold authorized in Ha. unfold Auth.requires_auth in Hr.
      destruct (Auth.verify (auth_header r)) as [tok|e0] eqn:Ev.
      * apply bool_decide_eq_false in Ha. rewrite decide_False in Hr by done.
        injection Hr as <- <-. exists "InsufficientScope", 403.
        split; [unfold auth_status; auto|].
        unfold app. rewrite Hf. unfold respond, Auth.requires_auth.
        rewrite Ev. by rewrite decide_False.
      * injection Hr as ->. destruct (verify_Raise_status _ _ Ev) as (? & ? & [= <- <-] & Hs).
        exists error, code. split; [exact Hs|].
        unfold app. rewrite Hf. unfold respond, Auth.requires_auth. by rewrite Ev.
  - intros p Hp Ha.
    assert (Hg : exists f, view rt = Auth.requires_auth p f).
    { destruct rt; simpl in *; try discriminate Hp; injection Hp as <-; by eexists. }
    destruct Hg as [f Hf].
    unfold app. rewrite Hf. unfold respond, Auth.requires_auth. unfold authorized in Ha.
    destruct (Auth.verify (auth_header r)) as [tok|e0]; [|discriminate Ha].
    apply bool_decide_eq_true in Ha. rewrite decide_True by done.
    by destruct (f r s) as [[[resp|e] s'] evs].
  - intros Hn r'. destruct rt; simpl in Hn; try discriminate Hn. reflexivity.
Qed.

Lemma route_permission_witness :
  let r := Demo.as_bearer Demo.barista_token None in
  exists error code,
    auth_status code /\
    @app Demo.env (DELETE_drinks 1) r Demo.menu = (auth_error error code, Demo.menu, []).
Proof.
  intros r.
  destruct (@route_permission Demo.env (DELETE_drinks 1) r Demo.menu) as [Hw _].
  exact (Hw "delete:drinks" eq_refl eq_refl).
Defined.

(** X4: a request that is not answered with 200 leaves the store as it
    was and commits nothing, at every route; the two GET routes never
    change the store. *)
Theorem failure_leaves_store `{Env} (rt : route) (r : request) (s : gmap Z row) :
  let '(resp, s', evs) := app rt r s in
  (resp_status resp <> 200 -> s' = s /\ occurs Commit evs = false) /\
  (rt = GET_drinks \/ rt = GET_drinks_detail -> s' = s /\ occurs Commit evs = false).
Proof.
  pose proof (view_outcome rt r s) as Hv. unfold app, respond.
  destruct (view rt r s) as [[[resp|e] s'] evs] eqn:Ev.
  - split; [intros Hne; by destruct Hv|].
    intros [-> | ->]; simpl in Ev.
    + by injection Ev as <- <- <-.
    + unfold Auth.requires_auth in Ev.
      destruct (Auth.verify (auth_header r)) as [tok|e0]; [|discriminate Ev].
      destruct (decide _); [|discriminate Ev]. by injection Ev as <- <- <-.
  - split; by intros _.
Qed.

Lemma failure_leaves_store_witness :
  let r := Demo.as_bearer Demo.manager_token (Some (PyInt 3)) in
  (@app Demo.env POST_drinks r Demo.menu).1.2 = Demo.menu.
Proof.
  intros r. pose proof (@failure_leaves_store Demo.env POST_drinks r Demo.menu) as Hw.
  destruct (app _ _ _) as [[resp s'] evs] eqn:Ea. destruct Hw as [Hw _].
  apply Hw. injection Ea as <- _ _. discriminate.
Defined.

(** X5: at every route the body says success true exactly when the status
    is 200. *)
Theorem success_flag_iff_200 `{Env} (rt : route) (r : request) (s : gmap Z row) :
  body_field "success" (app rt r s).1.1 = Some (PyBool true) <->
  resp_status (app rt r s).1.1 = 200.
Proof.
  pose proof (view_outcome rt r s) as Hv. unfold app, respond.
  destruct (view rt r s) as [[[resp|e] s'] evs] eqn:Ev; simpl.
  - by destruct Hv.
  - apply view_raises_status in Ev
      as [(error & code & -> & Hs & _)|(code & -> & _ & [-> |[-> | ->]])]; simpl.
    + unfold auth_status in Hs. split; [discriminate|]. intros ->. by destruct Hs as [?|[?|?]].
    + split; discriminate.
    + split; discriminate.
    + split; discriminate.
Qed.


(** ** POST and PATCH, case by case *)

Section Cases.
Context `{Env}.

Lemma post_drink_returned (r : request) (s s0 : gmap Z row) (d0 : Drink) :
  post_drink_parse r s = (Return d0, s0) ->
  s0 = s /\
  post_drink r s =
    if accepts s (<[Store.fresh_id s := row_of d0]> s)
    then (Return (jsonify (PyDict [("success", PyBool true);
                                   ("drinks", PyList [long {| id := Some (Store.fresh_id s);
                                                              title := title d0;
                                                              recipe := recipe d0 |}])])),
          <[Store.fresh_id s := row_of d0]> s, [RunUnit; Commit])
    else (Raise (HTTPException 500), s, [RunUnit; CommitFailed; Rollback]).
Proof.
  intros Hp.
  assert (Hs : s0 = s).
  { revert Hp. unfold post_drink_parse, bind, get_json, or_raise.
    destruct (json r) as [v|]; simpl; [|discriminate].
    destruct (py_get v "title" (PyStr "")); simpl; [|discriminate].
    destruct (py_get v "recipe" (PyList [])) as [rc|]; simpl; [|discriminate].
    destruct (dumps rc); simpl; [|discriminate]. unfold ret. by intros [= _ <-]. }
  subst s0. split; [done|].
  unfold post_drink, Transaction.run, Transaction.success; simpl.
  unfold bind at 1. unfold try_except. rewrite Hp.
  unfold bind, Store.insert, ret; simpl.
  by destruct (accepts s (<[Store.fresh_id s := row_of d0]> s)).
Qed.

(** The [try] block of [update_drink] on a dict body, in closed form. *)
Lemma update_drink_apply_dict (i : Z) (r : request) (items : list (string * pyval))
      (s : gmap Z row) (rw : row) :
  s !! i = Some rw ->
  json r = Some (PyDict items) ->
  match patch_row items rw with
  | Some rw' =>
      update_drink_apply r (drink_of i rw) s = (Return (drink_of i rw'), <[i := rw']> s)
  | None => exists e s1, update_drink_apply r (drink_of i rw) s = (Raise e, s1)
  end.
Proof.
  intros E Hj. destruct rw as [t0 rc0].
  unfold patch_row, update_drink_apply, bind, get_json, or_raise. rewrite Hj. simpl.
  destruct (truthy (default (PyStr "") (dict_lookup "title" items))); simpl;
    destruct (truthy (default (PyList []) (dict_lookup "recipe" items))); simpl;
    try destruct (dumps (default (PyList []) (dict_lookup "recipe" items))); simpl;
    unfold Store.set_title, Store.set_recipe, Store.save, ret, raise, drink_of, row_of; simpl;
    try (by do 2 eexists).
  all: first [by rewrite insert_insert_eq | by rewrite (insert_id s i _ E)].
Qed.

(** [update_drink] on a stored drink and a dict body, in closed form. *)
Lemma update_drink_dict (i : Z) (r : request) (items : list (string * pyval))
      (s : gmap Z row) (rw : row) :
  s !! i = Some rw ->
  json r = Some (PyDict items) ->
  respond (update_drink i r) s =
    match patch_row items rw with
    | Some rw' =>
        if accepts s (<[i := rw']> s)
        then (jsonify (PyDict [("success", PyBool true);
                               ("drinks", PyList [long (drink_of i rw')])]),
              <[i := rw']> s, [RunUnit; Commit])
        else (Response DefaultPage 500, s, [RunUnit; CommitFailed; Rollback])
    | None => (unprocessable (HTTPException 422), s, [RunUnit; Rollback])
    end.
Proof.
  intros E Hj. pose proof (update_drink_apply_dict i r items s rw E Hj) as Ha.
  unfold respond, update_drink, Transaction.run, Transaction.success; simpl.
  unfold bind at 1. unfold Store.query_get. rewrite (StoreFacts.get_Some _ _ _ E).
  unfold bind, try_except.
  destruct (patch_row items rw) as [rw'|].
  - rewrite Ha. unfold ret. by destruct (accepts s (<[i := rw']> s)).
  - destruct Ha as (e & s1 & ->). reflexivity.
Qed.

(** [update_drink] on a stored drink and a body that is no dict. *)
Lemma update_drink_no_dict (i : Z) (r : request) (s : gmap Z row) (rw : row) :
  s !! i = Some rw ->
  (forall items, json r <> Some (PyDict items)) ->
  respond (update_drink i r) s = (unprocessable (HTTPException 422), s, [RunUnit; Rollback]).
Proof.
  intros E Hn.
  unfold respond, update_drink, Transaction.run, Transaction.success; simpl.
  unfold bind at 1. unfold Store.query_get. rewrite (StoreFacts.get_Some _ _ _ E).
  unfold bind, try_except, update_drink_apply, bind, get_json, or_raise.
  destruct (json r) as [v|]; simpl; [|done].
  destruct v; simpl; try done. by destruct (Hn items).
Qed.

Lemma patch_row_None (items : list (string * pyval)) (rw : row) :
  patch_row items rw = None <->
  exists rc, dict_lookup "recipe" items = Some rc /\ truthy rc = true /\ dumps rc = None.
Proof.
  unfold patch_row. destruct (dict_lookup "recipe" items) as [rc|]; simpl.
  - destruct (truthy rc) eqn:Ht.
    + destruct (dumps rc) eqn:Hd.
      * split; [discriminate|]. intros (rc' & [= <-] & _ & Hd'). congruence.
      * split; [|done]. intros _. by exists rc.
    + split; [discriminate|]. intros (rc' & [= <-] & Ht' & _). congruence.
  - split; [discriminate|]. by intros (rc' & Hrc & _).
Qed.

(** What a successful PATCH has written is what the same PATCH would
    write again. *)
Lemma patch_row_idem (items : list (string * pyval)) (rw rw' : row) :
  patch_row items rw = Some rw' -> patch_row items rw' = Some rw'.
Proof.
  unfold patch_row.
  destruct (truthy (default (PyStr "") (dict_lookup "title" items)));
    destruct (truthy (default (PyList []) (dict_lookup "recipe" items)));
    try destruct (dumps (default (PyList []) (dict_lookup "recipe" items)));
    intros [= <-]; try done.
Qed.

Lemma patch_row_supplied (r : request) (items : list (string * pyval)) (rw : row) :
  json r = Some (PyDict items) ->
  patch_row items rw =
    let t' := default (row_title rw) (supplied_value "title" r) in
    match supplied_value "recipe" r with
    | Some rc => match dumps rc with
                 | Some text => Some {| row_title := t'; row_recipe := text |}
                 | None => None
                 end
    | None => Some {| row_title := t'; row_recipe := row_recipe rw |}
    end.
Proof.
  intros Hj. unfold patch_row, supplied_value. rewrite Hj.
  destruct (dict_lookup "title" items) as [t|]; simpl;
    destruct (dict_lookup "recipe" items) as [rc|]; simpl;
    repeat match goal with
           | |- context [truthy ?x] => destruct (truthy x) eqn:?; simpl
           end; done.
Qed.

End Cases.

(** X7: POST /drinks answers 422 exactly when the body does not parse, is
    not a dict, or its recipe cannot be serialized; on every other body
    the answer is 200 or, when the store refuses the commit, 500. *)
Theorem post_drink_unprocessable_iff `{Env} (r : request) (s : gmap Z row) :
  (resp_status (respond (post_drink r) s).1.1 = 422 <->
   json r = None \/
   (exists v, json r = Some v /\ forall items, v <> PyDict items) \/
   (exists items, json r = Some (PyDict items) /\
                  dumps (default (PyList []) (dict_lookup "recipe" items)) = None)) /\
  (resp_status (respond (post_drink r) s).1.1 = 422 \/
   resp_status (respond (post_drink r) s).1.1 = 200 \/
   resp_status (respond (post_drink r) s).1.1 = 500).
Proof.
  pose proof (post_drink_parse_raises r s) as Hraise.
  destruct (post_drink_parse r s) as [[d0|e] s0] eqn:Ep.
  - destruct (post_drink_returned r s s0 d0 Ep) as [_ Hp].
    assert (Hst : resp_status (respond (post_drink r) s).1.1 = 200 \/
                  resp_status (respond (post_drink r) s).1.1 = 500).
    { unfold respond. rewrite Hp. destruct (accepts _ _); simpl; auto. }
    split; [|tauto]. split.
    + intros H422. destruct Hst as [Hst|Hst]; rewrite Hst in H422; discriminate H422.
    + intros Hc. apply Hraise in Hc as [e He]. discriminate He.
  - pose proof (post_drink_raised r s s0 e Ep) as Hp.
    rewrite (respond_Raise _ _ _ _ _ Hp). simpl. split; [|by left].
    split; [|done]. intros _. apply Hraise. by exists e.
Qed.

Lemma post_drink_unprocessable_iff_witness :
  resp_status (respond (@post_drink Demo.env (Demo.as_bearer Demo.manager_token
                                                (Some (PyList [PyInt 1])))) Demo.menu).1.1 = 422.
Proof.
  destruct (@post_drink_unprocessable_iff Demo.env
              (Demo.as_bearer Demo.manager_token (Some (PyList [PyInt 1]))) Demo.menu)
    as [[_ Hw] _].
  apply Hw. right; left. exists (PyList [PyInt 1]). split; [reflexivity|]. by intros items.
Defined.

(** X8: PATCH on a stored drink answers 422 exactly when the body does
    not parse, is not a dict, or supplies a truthy recipe that cannot be
    serialized; a recipe that is absent or falsy is never serialized. *)
Theorem update_drink_unprocessable_iff `{Env} (i : Z) (r : request) (s : gmap Z row)
        (rw : row) :
  s !! i = Some rw ->
  (resp_status (respond (update_drink i r) s).1.1 = 422 <->
   json r = None \/
   (exists v, json r = Some v /\ forall items, v <> PyDict items) \/
   (exists items rc, json r = Some (PyDict items) /\
                     dict_lookup "recipe" items = Some rc /\
                     truthy rc = true /\ dumps rc = None)).
Proof.
  intros E. destruct (json r) as [v|] eqn:Hj.
  - assert (Hcase : (exists items, v = PyDict items) \/ (forall items, v <> PyDict items)).
    { destruct v; try (right; intros ?; discriminate). left. by eexists. }
    destruct Hcase as [[items ->]|Hn].
    + rewrite (update_drink_dict i r items s rw E Hj).
      pose proof (patch_row_None items rw) as Hnone.
      destruct (patch_row items rw) as [rw'|].
      * split.
        -- destruct (accepts _ _); simpl; discriminate.
        -- intros [Hc|[(v & [= <-] & Hv)|(items' & rc & [= <-] & Hrc)]];
             [discriminate Hc|by destruct (Hv items)|].
           assert (Hf : Some rw' = None) by (apply Hnone; by exists rc).
           discriminate Hf.
      * split; [|done]. intros _. right; right.
        destruct (proj1 Hnone eq_refl) as (rc & Hrc). by exists items, rc.
    + rewrite (update_drink_no_dict i r s rw E).
      * split; [|done]. intros _. right; left. by exists v.
      * intros items Heq. rewrite Hj in Heq. injection Heq as ->. by destruct (Hn items).
  - rewrite (update_drink_no_dict i r s rw E).
    + split; [by left|done].
    + intros items Heq. rewrite Hj in Heq. discriminate Heq.
Qed.

Lemma update_drink_unprocessable_iff_witness :
  Demo.menu !! 1 = Some Demo.latte /\
  resp_status (respond (@update_drink Demo.env 1 (Demo.as_bearer Demo.manager_token
                                                    (Some (PyStr "mocha")))) Demo.menu).1.1 = 422.
Proof.
  split; [reflexivity|].
  apply (@update_drink_unprocessable_iff Demo.env 1
           (Demo.as_bearer Demo.manager_token (Some (PyStr "mocha"))) Demo.menu Demo.latte
           eq_refl).
  right; left. exists (PyStr "mocha"). split; [reflexivity|]. by intros items.
Defined.

(** ** PATCH after PATCH *)

Section Patches.
Context `{Env}.

Lemma supplied_value_dict (key : string) (r : request) (v : pyval) :
  supplied_value key r = Some v -> exists items, json r = Some (PyDict items).
Proof.
  unfold supplied_value. destruct (json r) as [[]|]; try discriminate. by eexists.
Qed.

(** A PATCH that is answered with 200 was a dict body on a stored drink,
    and the store holds the patched row. *)
Lemma update_drink_ok (i : Z) (r : request) (s s1 : gmap Z row) (resp : response)
      (evs : list event) :
  respond (update_drink i r) s = (resp, s1, evs) ->
  resp_status resp = 200 ->
  exists items rw rw',
    json r = Some (PyDict items) /\ s !! i = Some rw /\ patch_row items rw = Some rw' /\
    s1 = <[i := rw']> s /\
    resp = jsonify (PyDict [("success", PyBool true);
                            ("drinks", PyList [long (drink_of i rw')])]).
Proof.
  intros Hr Hst. destruct (s !! i) as [rw|] eqn:E.
  - destruct (json r) as [v|] eqn:Hj.
    + assert (Hcase : (exists items, v = PyDict items) \/ (forall items, v <> PyDict items)).
      { destruct v; try (right; intros ?; discriminate). left. by eexists. }
      destruct Hcase as [[items ->]|Hn].
      * rewrite (update_drink_dict i r items s rw E Hj) in Hr.
        destruct (patch_row items rw) as [rw'|] eqn:Hp.
        -- destruct (accepts s (<[i := rw']> s)); injection Hr as <- <- <-;
             [|discriminate Hst]. by exists items, rw, rw'.
        -- injection Hr as <- <- <-. discriminate Hst.
      * rewrite (update_drink_no_dict i r s rw E) in Hr.
        -- injection Hr as <- <- <-. discriminate Hst.
        -- intros items Heq. rewrite Hj in Heq. injection Heq as ->. by destruct (Hn items).
    + rewrite (update_drink_no_dict i r s rw E) in Hr.
      * injection Hr as <- <- <-. discriminate Hst.
      * intros items Heq. rewrite Hj in Heq. discriminate Heq.
  - rewrite (respond_Raise _ _ _ _ _ (update_drink_absent i r s E)) in Hr.
    injection Hr as <- <- <-. discriminate Hst.
Qed.

End Patches.

(** X9: a PATCH whose body is a dict that supplies neither a truthy title
    nor a truthy recipe succeeds and changes nothing: the answer is 200
    with the drink as stored.  An empty string cannot clear a title. *)
Theorem update_drink_nothing_supplied `{Env} (i : Z) (r : request)
        (items : list (string * pyval)) (s : gmap Z row) (rw : row) :
  s !! i = Some rw ->
  json r = Some (PyDict items) ->
  supplied "title" r = false ->
  supplied "recipe" r = false ->
  accepts s s = true ->
  respond (update_drink i r) s =
    (Response (Json (PyDict [("success", PyBool true);
                             ("drinks", PyList [long (drink_of i rw)])])) 200,
     s, [RunUnit; Commit]).
Proof.
  intros E Hj Ht Hr Hok. apply supplied_false in Ht. apply supplied_false in Hr.
  rewrite (update_drink_dict i r items s rw E Hj).
  rewrite (patch_row_supplied r items rw Hj), Ht, Hr. simpl.
  replace {| row_title := row_title rw; row_recipe := row_recipe rw |} with rw
    by by destruct rw.
  rewrite (insert_id s i rw E). by rewrite Hok.
Qed.

Lemma update_drink_nothing_supplied_witness :
  let r := Demo.as_bearer Demo.manager_token
             (Some (PyDict [("title", PyStr ""); ("recipe", PyList [])])) in
  respond (@update_drink Demo.env 1 r) Demo.menu =
    (Response (Json (PyDict [("success", PyBool true);
                             ("drinks", PyList [Demo.text_long (drink_of 1 Demo.latte)])])) 200,
     Demo.menu, [RunUnit; Commit]).
Proof.
  intros r.
  exact (@update_drink_nothing_supplied Demo.env 1 r _ Demo.menu Demo.latte
           eq_refl eq_refl eq_refl eq_refl eq_refl).
Defined.

(** X10: PATCH is idempotent: repeating a PATCH that was answered with
    200 gives the same answer and leaves the store as the first one left
    it, provided the store commits again. *)
Theorem update_drink_idempotent `{Env} (i : Z) (r : request) (s s1 : gmap Z row)
        (resp : response) (evs : list event) :
  respond (update_drink i r) s = (resp, s1, evs) ->
  resp_status resp = 200 ->
  accepts s1 s1 = true ->
  respond (update_drink i r) s1 = (resp, s1, [RunUnit; Commit]).
Proof.
  intros Hr Hst Hok.
  destruct (update_drink_ok i r s s1 resp evs Hr Hst)
    as (items & rw & rw' & Hj & E & Hp & -> & ->).
  rewrite (update_drink_dict i r items (<[i := rw']> s) rw' (lookup_insert_eq _ _ _) Hj).
  rewrite (patch_row_idem items rw rw' Hp), insert_insert_eq. by rewrite Hok.
Qed.

Lemma update_drink_idempotent_witness :
  let r := Demo.as_bearer Demo.manager_token (Some (PyDict [("title", PyStr "flat white")])) in
  let s1 := (respond (@update_drink Demo.env 1 r) Demo.menu).1.2 in
  (respond (@update_drink Demo.env 1 r) s1).1.2 = s1.
Proof.
  intros r s1.
  destruct (respond (@update_drink Demo.env 1 r) Demo.menu) as [[resp s'] evs] eqn:Er.
  assert (Hst : resp_status resp = 200) by (by injection Er as <- _ _).
  subst s1. simpl.
  by rewrite (@update_drink_idempotent Demo.env 1 r Demo.menu s' resp evs Er Hst eq_refl).
Defined.

(** X11: a PATCH of the title alone followed by a PATCH of the recipe
    alone leaves the store as one PATCH of both leaves it, on a store
    that commits. *)
Theorem update_drink_title_then_recipe `{Env} (i : Z) (r1 r2 r12 : request)
        (s : gmap Z row) (rw : row) (t rc : pyval) (text : string) :
  (forall a b, accepts a b = true) ->
  s !! i = Some rw ->
  supplied_value "title" r1 = Some t -> supplied_value "recipe" r1 = None ->
  supplied_value "title" r2 = None -> supplied_value "recipe" r2 = Some rc ->
  supplied_value "title" r12 = Some t -> supplied_value "recipe" r12 = Some rc ->
  dumps rc = Some text ->
  (respond (update_drink i r2) (respond (update_drink i r1) s).1.2).1.2 =
    (respond (update_drink i r12) s).1.2 /\
  (respond (update_drink i r12) s).1.2 = <[i := {| row_title := t; row_recipe := text |}]> s.
Proof.
  intros Hok E Ht1 Hr1 Ht2 Hr2 Ht12 Hr12 Hd.
  destruct (supplied_value_dict _ _ _ Ht1) as [items1 Hj1].
  destruct (supplied_value_dict _ _ _ Hr2) as [items2 Hj2].
  destruct (supplied_value_dict _ _ _ Ht12) as [items12 Hj12].
  rewrite (update_drink_dict i r12 items12 s rw E Hj12).
  rewrite (patch_row_supplied r12 items12 rw Hj12), Ht12, Hr12, Hd. simpl.
  rewrite Hok. simpl.
  rewrite (update_drink_dict i r1 items1 s rw E Hj1).
  rewrite (patch_row_supplied r1 items1 rw Hj1), Ht1, Hr1. simpl.
  rewrite Hok. simpl.
  rewrite (update_drink_dict i r2 items2 _ _ (lookup_insert_eq _ _ _) Hj2).
  rewrite (patch_row_supplied r2 items2 _ Hj2), Ht2, Hr2, Hd. simpl.
  rewrite Hok. simpl. by rewrite insert_insert_eq.
Qed.

Lemma update_drink_title_then_recipe_witness :
  let r1 := Demo.as_bearer Demo.manager_token (Some (PyDict [("title", PyStr "mocha")])) in
  let r2 := Demo.as_bearer Demo.manager_token (Some (PyDict [("recipe", PyList [PyInt 1])])) in
  let r12 := Demo.as_bearer Demo.manager_token
               (Some (PyDict [("title", PyStr "mocha"); ("recipe", PyList [PyInt 1])])) in
  (respond (@update_drink Demo.env 1 r2) (respond (@update_drink Demo.env 1 r1) Demo.menu).1.2).1.2
  = <[1 := {| row_title := PyStr "mocha"; row_recipe := "[1]" |}]> Demo.menu.
Proof.
  intros r1 r2 r12.
  destruct (@update_drink_title_then_recipe Demo.env 1 r1 r2 r12 Demo.menu Demo.latte
              (PyStr "mocha") (PyList [PyInt 1]) "[1]"
              (fun _ _ => eq_refl) eq_refl eq_refl eq_refl eq_refl eq_refl eq_refl eq_refl
              eq_refl) as [H1 H2].
  by rewrite H1, H2.
Defined.

(** X12: PATCH never adds or removes a drink: whatever the id, the body
    and the outcome, the stored identifiers are the same afterwards and
    GET /drinks lists as many drinks as before. *)
Theorem update_drink_keeps_ids `{Env} (i : Z) (r : request) (s : gmap Z row) :
  dom (respond (update_drink i r) s).1.2 = dom s /\
  length (Store.all (respond (update_drink i r) s).1.2) = length (Store.all s).
Proof.
  assert (Hdom : dom (respond (update_drink i r) s).1.2 = dom s).
  { destruct (s !! i) as [rw|] eqn:E.
    - pose proof (update_drink_apply_spec i r s rw E) as Hspec.
      unfold respond, update_drink, Transaction.run, Transaction.success; simpl.
      unfold bind at 1. unfold Store.query_get. rewrite (StoreFacts.get_Some _ _ _ E).
      unfold bind, try_except.
      destruct (update_drink_apply r (drink_of i rw) s) as [[d|e] s1]; simpl; [|done].
      destruct (accepts s s1); simpl; [|done].
      destruct Hspec as (rw' & _ & Hi & Hj & _).
      apply set_eq. intros j. rewrite !elem_of_dom.
      destruct (decide (j = i)) as [->|Hne]; [|by rewrite (Hj j Hne)].
      rewrite Hi, E. split; intros _; by eexists.
    - by rewrite (respond_Raise _ _ _ _ _ (update_drink_absent i r s E)). }
  split; [exact Hdom|].
  rewrite !all_length. by rewrite <- !size_dom, Hdom.
Qed.

(** ** POST, DELETE and the listing *)

Section CreateDelete.
Context `{Env}.

(** A POST that is answered with 200 has added one row under the fresh
    identifier, and answers with the drink of that row. *)
Lemma post_drink_ok (r : request) (s s1 : gmap Z row) (resp : response) (evs : list event) :
  respond (post_drink r) s = (resp, s1, evs) ->
  resp_status resp = 200 ->
  exists rw,
    s1 = <[Store.fresh_id s := rw]> s /\
    resp = jsonify (PyDict [("success", PyBool true);
                            ("drinks", PyList [long (drink_of (Store.fresh_id s) rw)])]).
Proof.
  intros Hr Hst. destruct (post_drink_parse r s) as [[d0|e] s0] eqn:Ep.
  - destruct (post_drink_returned r s s0 d0 Ep) as [_ Hp].
    unfold respond in Hr. rewrite Hp in Hr.
    destruct (accepts s (<[Store.fresh_id s := row_of d0]> s));
      injection Hr as <- <- <-; [|discriminate Hst].
    by exists (row_of d0).
  - rewrite (respond_Raise _ _ _ _ _ (post_drink_raised r s s0 e Ep)) in Hr.
    injection Hr as <- <- <-. discriminate Hst.
Qed.

End CreateDelete.

(** X13: a successful POST followed by a DELETE of the identifier it
    assigned gives the store back as it was before the POST, when the
    store commits the delete. *)
Theorem post_then_delete `{Env} (r r' : request) (s s1 : gmap Z row) (resp : response)
        (evs : list event) :
  respond (post_drink r) s = (resp, s1, evs) ->
  resp_status resp = 200 ->
  accepts s1 s = true ->
  (exists d, id d = Some (Store.fresh_id s) /\
             resp = jsonify (PyDict [("success", PyBool true);
                                     ("drinks", PyList [long d])])) /\
  respond (delete_drinks (Store.fresh_id s) r') s1 =
    (Response (Json (PyDict [("success", PyBool true);
                             ("delete", PyInt (Store.fresh_id s))])) 200,
     s, [RunUnit; Commit]).
Proof.
  intros Hr Hst Hok. destruct (post_drink_ok r s s1 resp evs Hr Hst) as (rw & -> & ->).
  split; [exists (drink_of (Store.fresh_id s) rw); by split|].
  unfold respond.
  rewrite (delete_drinks_present _ r' _ rw (lookup_insert_eq _ _ _)).
  rewrite (delete_insert_id s _ rw (StoreFacts.fresh_id_fresh s)). by rewrite Hok.
Qed.

Lemma post_then_delete_witness :
  let r := Demo.as_bearer Demo.manager_token (Some (PyDict [("title", PyStr "mocha")])) in
  let s1 := (respond (@post_drink Demo.env r) Demo.menu).1.2 in
  (respond (@delete_drinks Demo.env 2 r) s1).1.2 = Demo.menu.
Proof.
  intros r s1.
  destruct (respond (@post_drink Demo.env r) Demo.menu) as [[resp s'] evs] eqn:Er.
  assert (Hst : resp_status resp = 200) by (by injection Er as <- _ _).
  subst s1. simpl.
  destruct (@post_then_delete Demo.env r r Demo.menu s' resp evs Er Hst eq_refl) as [_ Hd].
  change (Store.fresh_id Demo.menu) with 2 in Hd. by rewrite Hd.
Defined.

(** X14: after a successful POST the listing is the listing from before
    with the new drink added: the new drink was not listed before, every
    drink listed before still is, and nothing else is. *)
Theorem post_drink_listing `{Env} (r : request) (s s1 : gmap Z row) (resp : response)
        (evs : list event) :
  respond (post_drink r) s = (resp, s1, evs) ->
  resp_status resp = 200 ->
  exists d,
    resp = jsonify (PyDict [("success", PyBool true); ("drinks", PyList [long d])]) /\
    (d ∉ Store.all s) /\
    Store.all s1 ≡ₚ d :: Store.all s /\
    (short <$> Store.all s1) ≡ₚ short d :: (short <$> Store.all s) /\
    size s1 = S (size s).
Proof.
  intros Hr Hst. destruct (post_drink_ok r s s1 resp evs Hr Hst) as (rw & -> & ->).
  pose proof (StoreFacts.fresh_id_fresh s) as Hf.
  exists (drink_of (Store.fresh_id s) rw). split; [done|]. split; [|split; [|split]].
  - intros Hin. apply StoreFacts.elem_of_all in Hin as (j & rw' & Hs & Heq).
    apply drink_of_inj in Heq. injection Heq as <- <-. rewrite Hf in Hs. discriminate Hs.
  - by apply all_insert.
  - by rewrite (all_insert s _ rw Hf).
  - by apply map_size_insert_None.
Qed.

Lemma post_drink_listing_witness :
  let r := Demo.as_bearer Demo.manager_token (Some (PyDict [("title", PyStr "mocha")])) in
  size (respond (@post_drink Demo.env r) Demo.menu).1.2 = S (size Demo.menu).
Proof.
  intros r.
  destruct (respond (@post_drink Demo.env r) Demo.menu) as [[resp s'] evs] eqn:Er.
  assert (Hst : resp_status resp = 200) by (by injection Er as <- _ _).
  destruct (@post_drink_listing Demo.env r Demo.menu s' resp evs Er Hst)
    as (d & _ & _ & _ & _ & Hsz).
  exact Hsz.
Defined.

(** X15: after a successful DELETE the listing is the listing from before
    without the deleted drink, and with every other drink. *)
Theorem delete_drinks_listing `{Env} (i : Z) (r : request) (s s1 : gmap Z row) (rw : row)
        (resp : response) (evs : list event) :
  s !! i = Some rw ->
  respond (delete_drinks i r) s = (resp, s1, evs) ->
  resp_status resp = 200 ->
  (drink_of i rw ∉ Store.all s1) /\
  drink_of i rw :: Store.all s1 ≡ₚ Store.all s /\
  short (drink_of i rw) :: (short <$> Store.all s1) ≡ₚ (short <$> Store.all s) /\
  S (size s1) = size s.
Proof.
  intros E Hr Hst. unfold respond in Hr. rewrite (delete_drinks_present i r s rw E) in Hr.
  destruct (accepts s (delete i s)); injection Hr as <- <- <-; [|discriminate Hst].
  split; [|split; [|split]].
  - intros Hin. apply StoreFacts.elem_of_all in Hin as (j & rw' & Hs & Heq).
    apply drink_of_inj in Heq. injection Heq as <- <-.
    rewrite lookup_delete_eq in Hs. discriminate Hs.
  - by apply all_delete.
  - by rewrite <- (all_delete s i rw E).
  - rewrite <- !all_length, <- (all_delete s i rw E). reflexivity.
Qed.

Lemma delete_drinks_listing_witness :
  let r := Demo.as_bearer Demo.manager_token None in
  Demo.menu !! 1 = Some Demo.latte /\
  S (size (respond (@delete_drinks Demo.env 1 r) Demo.menu).1.2) = size Demo.menu.
Proof.
  intros r. split; [reflexivity|].
  destruct (respond (@delete_drinks Demo.env 1 r) Demo.menu) as [[resp s'] evs] eqn:Er.
  assert (Hst : resp_status resp = 200) by (by injection Er as <- _ _).
  destruct (@delete_drinks_listing Demo.env 1 r Demo.menu s' Demo.latte resp evs eq_refl Er Hst)
    as (_ & _ & _ & Hsz).
  exact Hsz.
Defined.
